(** * iab-docs-bot: the worker's answering pipeline

    A shallow embedding of the three worker modules

      - [skill.ts]   the scope-document cache ([getSkillContext]),
      - [mcp.ts]     the client of the tool-serving endpoint
                     ([getClient], [searchDocuments], [closeClient]),
      - [gemini.ts]  the agent loop ([buildSystemPrompt], [getModel],
                     [generateAnswer]),

    followed by the properties of the design document that were checked
    against them.

    Conventions.
      - A JavaScript string is a [string] holding its UTF-8 bytes.
      - [Date.now()] and the millisecond arithmetic are in [Z].
      - Module-level [let] variables are fields of [State].
      - Everything outside the process (clock, HTTP, the tool-serving
        endpoint, the model) is an oracle of [Env]: a function of the
        history of interactions so far.  Every interaction is appended to
        [trace], so that "no network call" and "exactly one fetch" are
        statements about the trace.
      - A thrown JavaScript exception is [Abrupt]; state changes made
        before the throw persist, as they do in JavaScript.
      - [console.*] output is not modelled. *)

From Stdlib Require Import String Ascii ZArith List Bool Lia DecimalString.
From ExtLib Require Import Structures.Monad Structures.MonadExc Structures.MonadState.
Import ListNotations.
Import MonadNotation.

Local Open Scope string_scope.
Local Open Scope Z_scope.
Local Open Scope monad_scope.

Set Implicit Arguments.

(* ===================================================================== *)
(** * JavaScript values that cross the module boundaries                   *)
(* ===================================================================== *)

(** An [Error] object; only [message] is ever read by the program. *)
Record JsError := Error { message : string }.

(** What an awaited call into the outside world produces. *)
Inductive Outcome (A : Type) : Type :=
| Ok (a : A)
| Throw (e : JsError).
Arguments Ok {A} a.
Arguments Throw {A} e.

(** A JSON value (tool arguments, parameter schemas). *)
#[local] Unset Elimination Schemes.
Inductive JsValue : Type :=
| JNull
| JBool (b : bool)
| JNum (n : Z)
| JStr (s : string)
| JArr (l : list JsValue)
| JObj (fields : list (string * JsValue)).
#[local] Set Elimination Schemes.

(** [a || b] on strings read from the environment: an absent or empty
    string is falsy. *)
Definition js_or (a : option string) (b : string) : string :=
  match a with
  | Some EmptyString => b
  | Some s => s
  | None => b
  end.

(** [`${n}`] for an integer. *)
Definition string_of_Z (n : Z) : string :=
  NilZero.string_of_int (Z.to_int n).

(** ** fetch *)

(** The [Response] of [fetch]: its status and what reading its body with
    [res.text()] gives. *)
Record HttpResponse := mkHttpResponse {
  status : Z;
  body : Outcome string
}.

(** [res.ok]: the status is in the range 200-299. *)
Definition ok (res : HttpResponse) : bool :=
  (200 <=? status res) && (status res <=? 299).

(** ** The tool-serving endpoint (MCP SDK) *)

Record Client := mkClient {
  clientName : string;
  clientVersion : string
}.

Record ToolInfo := mkToolInfo {
  toolName : string;
  toolDescription : option string
}.

(** An element of a tool response: its [type] tag and, when [item.text]
    is a string, that string. *)
Record ContentItem := mkContentItem {
  itemType : string;
  itemText : option string
}.

(** [result.content] is [None] when absent or not an array. *)
Record CallToolResult := mkCallToolResult {
  resultContent : option (list ContentItem)
}.

Record SearchResult := mkSearchResult {
  content : string;
  sources : list string
}.

(** ** The model endpoint (Gemini SDK) *)

Record FunctionDeclaration := mkFunctionDeclaration {
  declName : string;
  declDescription : string;
  declParameters : JsValue
}.

Record Tool := mkTool {
  functionDeclarations : list FunctionDeclaration
}.

Record GoogleGenerativeAI := mkGenAI {
  apiKey : string
}.

Record GenerativeModel := mkModel {
  model : string;
  systemInstruction : string;
  tools : list Tool
}.

Record FunctionCall := mkFunctionCall {
  callName : string;
  callArgs : JsValue
}.

(** The [response] object of a tool-result part: [{ content }] after a
    successful invocation, [{ error }] after a failed one. *)
Inductive ToolResponse : Type :=
| ResponseContent (c : string)
| ResponseError (msg : string).

(** [{ functionResponse: { name, response } }] *)
Record Part := mkPart {
  partName : string;
  partResponse : ToolResponse
}.

(** What [chat.sendMessage] accepts: the question or a list of parts. *)
Inductive Message : Type :=
| Question (q : string)
| Parts (ps : list Part).

(** [result.response]: [functionCalls()] is [undefined] or an array,
    [text()] is the text of the response. *)
Record Response := mkResponse {
  functionCalls : option (list FunctionCall);
  text : string
}.

(* ===================================================================== *)
(** * The outside world                                                    *)
(* ===================================================================== *)

(** One interaction with the outside, with what it produced. *)
Inductive Event : Type :=
| DateNow (t : Z)
| Fetch (url : string) (out : Outcome HttpResponse)
| McpConnect (url : string) (out : Outcome unit)
| McpListTools (out : Outcome (list ToolInfo))
| McpCallTool (name : string) (args : JsValue) (out : Outcome CallToolResult)
| McpClose (out : Outcome unit)
| GetGeminiTools (out : Outcome (list FunctionDeclaration))
| CallMcpTool (name : string) (args : JsValue) (out : Outcome SearchResult)
| SendMessage (m : GenerativeModel) (msg : Message) (out : Outcome Response).

Definition History := list Event.

(** The environment of one process.  Each oracle answers from the whole
    history, so any behaviour of the outside that depends on what
    happened before is one [Env].  [new_URL] is the URL parser of the
    runtime, which throws on a string that is not a URL.

    [getGeminiTools_] and [callMcpTool_] stand for the two functions that
    [gemini.ts] imports from [./mcp.js]: the [mcp.ts] at hand does not
    export them, so the agent loop is verified for every behaviour they
    may have towards their caller (a value or an exception). *)
Record Env := mkEnv {
  process_env : string -> option string;
  clock : History -> Z;
  new_URL : string -> Outcome string;
  http_get : History -> string -> Outcome HttpResponse;
  mcp_connect : History -> string -> Outcome unit;
  mcp_listTools : History -> Outcome (list ToolInfo);
  mcp_callTool : History -> string -> JsValue -> Outcome CallToolResult;
  mcp_close : History -> Outcome unit;
  getGeminiTools_ : History -> Outcome (list FunctionDeclaration);
  callMcpTool_ : History -> string -> JsValue -> Outcome SearchResult;
  llm : History -> GenerativeModel -> Message -> Outcome Response
}.

(* ===================================================================== *)
(** * Process state and the monad of the program                           *)
(* ===================================================================== *)

Record State := mkState {
  cachedContent : option string;        (* skill.ts *)
  cachedAt : Z;                         (* skill.ts *)
  client : option Client;               (* mcp.ts *)
  genAI : option GoogleGenerativeAI;    (* gemini.ts *)
  trace : History
}.

(** The state of a freshly started process. *)
Definition initial_state : State :=
  mkState None 0 None None [].

Definition set_cachedContent (v : option string) (st : State) : State :=
  mkState v (cachedAt st) (client st) (genAI st) (trace st).
Definition set_cachedAt (v : Z) (st : State) : State :=
  mkState (cachedContent st) v (client st) (genAI st) (trace st).
Definition set_client (v : option Client) (st : State) : State :=
  mkState (cachedContent st) (cachedAt st) v (genAI st) (trace st).
Definition set_genAI (v : option GoogleGenerativeAI) (st : State) : State :=
  mkState (cachedContent st) (cachedAt st) (client st) v (trace st).
Definition emit (ev : Event) (st : State) : State :=
  mkState (cachedContent st) (cachedAt st) (client st) (genAI st) (trace st ++ [ev])%list.

(** How a computation ends: with a value, with a thrown exception, or
    (for the bounded unrolling of a loop only) without having finished. *)
Inductive Completion (A : Type) : Type :=
| Normal (a : A)
| Abrupt (e : JsError)
| OutOfFuel.
Arguments Normal {A} a.
Arguments Abrupt {A} e.
Arguments OutOfFuel {A}.

Definition M (A : Type) : Type := State -> Completion A * State.

Definition retM {A} (a : A) : M A := fun st => (Normal a, st).

Definition bindM {A B} (c : M A) (k : A -> M B) : M B :=
  fun st =>
    match c st with
    | (Normal a, st') => k a st'
    | (Abrupt e, st') => (Abrupt e, st')
    | (OutOfFuel, st') => (OutOfFuel, st')
    end.

(** [throw e] *)
Definition throw {A} (e : JsError) : M A := fun st => (Abrupt e, st).

(** [try { c } catch (err) { handler err }] *)
Definition try_catch {A} (c : M A) (handler : JsError -> M A) : M A :=
  fun st =>
    match c st with
    | (Abrupt e, st') => handler e st'
    | r => r
    end.

#[global] Instance Monad_M : Monad M :=
  {| ret := @retM; bind := @bindM |}.

#[global] Instance MonadExc_M : MonadExc JsError M :=
  {| raise := @throw; catch := @try_catch |}.

#[global] Instance MonadState_M : MonadState State M :=
  {| get := fun st => (Normal st, st);
     put := fun st' _ => (Normal tt, st') |}.

(** An awaited call: its outcome is a value or a thrown exception. *)
Definition await {A} (o : Outcome A) : M A :=
  match o with
  | Ok a => ret a
  | Throw e => raise e
  end.

(** Ask an oracle, record the interaction, hand over the outcome. *)
Definition interact {A} (ask : History -> A) (ev : A -> Event) : M A :=
  st <- get ;;
  let a := ask (trace st) in
  put (emit (ev a) st) ;;
  ret a.

(** An awaited call to the outside: ask, record, and return the value
    or throw the exception. *)
Definition call {A} (ask : History -> Outcome A) (ev : Outcome A -> Event) : M A :=
  o <- interact ask ev ;;
  await o.

(** ** Counting interactions *)

Definition is_fetch (ev : Event) : bool :=
  match ev with Fetch _ _ => true | _ => false end.
Definition is_connect (ev : Event) : bool :=
  match ev with McpConnect _ _ => true | _ => false end.
Definition is_callTool (ev : Event) : bool :=
  match ev with McpCallTool _ _ _ => true | _ => false end.
Definition is_send (ev : Event) : bool :=
  match ev with SendMessage _ _ _ => true | _ => false end.
Definition is_tool_exchange (ev : Event) : bool :=
  match ev with SendMessage _ (Parts _) _ => true | _ => false end.

Definition count (p : Event -> bool) (h : History) : nat :=
  length (filter p h).

(* ===================================================================== *)
(** * skill.ts                                                             *)
(* ===================================================================== *)

Module skill.

Definition SKILL_MD_URL (env : Env) : string :=
  js_or (process_env env "SKILL_MD_URL") "https://iab-docs.apti.jp/skill.md".

Definition CACHE_TTL_MS : Z := 60 * 60 * 1000.

Section WithEnv.
Variable env : Env.

(** [Date.now()] *)
Definition Date_now : M Z :=
  interact (clock env) DateNow.

(** [await fetch(url)] *)
Definition fetch (url : string) : M HttpResponse :=
  call (fun h => http_get env h url) (Fetch url).

(** The guard of [getSkillContext]:
    [cachedContent !== null && now - cachedAt < CACHE_TTL_MS]. *)
Definition fresh (st : State) (now : Z) : bool :=
  match cachedContent st with
  | Some _ => now - cachedAt st <? CACHE_TTL_MS
  | None => false
  end.

(** [cachedContent ?? ''] *)
Definition cached_or_empty (st : State) : string :=
  match cachedContent st with
  | Some c => c
  | None => ""
  end.

Definition getSkillContext : M string :=
  now <- Date_now ;;
  st <- get ;;
  if fresh st now then ret (cached_or_empty st)
  else
    catch
      (res <- fetch (SKILL_MD_URL env) ;;
       if negb (ok res) then raise (Error ("HTTP " ++ string_of_Z (status res)))
       else
         text <- await (body res) ;;
         st <- get ;;
         put (set_cachedAt now (set_cachedContent (Some text) st)) ;;
         ret text)
      (fun err =>
         st <- get ;;
         ret (cached_or_empty st)).

End WithEnv.
End skill.


(* ===================================================================== *)
(** * Strings as the program uses them                                     *)
(* ===================================================================== *)

Module js.

(** The line feed of ['\n']. *)
Definition LF : string := String "010"%char "".

Definition chars (s : string) : list ascii := list_ascii_of_string s.
Definition of_chars (l : list ascii) : string := string_of_list_ascii l.

(** [String.prototype.toLowerCase], on the ASCII letters.  No character
    outside ASCII has a lower case made of the letters of ['search'] or
    ['query'], the only strings the result is searched for. *)
Definition lower (c : ascii) : ascii :=
  let n := nat_of_ascii c in
  if ((65 <=? n) && (n <=? 90))%nat then ascii_of_nat (n + 32) else c.

Fixpoint toLowerCase (s : string) : string :=
  match s with
  | EmptyString => EmptyString
  | String c s' => String (lower c) (toLowerCase s')
  end.

(** [s.includes(sub)] *)
Fixpoint includes (s sub : string) : bool :=
  if prefix sub s then true
  else match s with
       | EmptyString => false
       | String _ s' => includes s' sub
       end.

(** ** [String.prototype.trim]

    The white space and line terminators of ECMAScript, in their UTF-8
    encodings of one, two and three bytes. *)
Definition ws1 (a : ascii) : bool :=
  let n := nat_of_ascii a in
  ((9 <=? n) && (n <=? 13) || (n =? 32))%nat.

(** U+00A0 *)
Definition ws2 (a b : ascii) : bool :=
  let '(m, n) := (nat_of_ascii a, nat_of_ascii b) in
  ((m =? 194) && (n =? 160))%nat.

(** U+1680, U+2000..U+200A, U+2028, U+2029, U+202F, U+205F, U+3000,
    U+FEFF *)
Definition ws3 (a b c : ascii) : bool :=
  let '(l, m, n) := (nat_of_ascii a, nat_of_ascii b, nat_of_ascii c) in
  ((l =? 225) && (m =? 154) && (n =? 128)
   || (l =? 226) && (m =? 128)
      && ((128 <=? n) && (n <=? 138) || (n =? 168) || (n =? 169) || (n =? 175))
   || (l =? 226) && (m =? 129) && (n =? 159)
   || (l =? 227) && (m =? 128) && (n =? 128)
   || (l =? 239) && (m =? 187) && (n =? 191))%nat.

(** Drop the white space a list of bytes starts with; [w2] and [w3] say
    which two and three bytes are one white-space character, so that the
    same function serves on the reversed string. *)
Fixpoint strip (w2 : ascii -> ascii -> bool) (w3 : ascii -> ascii -> ascii -> bool)
    (l : list ascii) : list ascii :=
  match l with
  | a :: l1 =>
      if ws1 a then strip w2 w3 l1
      else match l1 with
           | b :: l2 =>
               if w2 a b then strip w2 w3 l2
               else match l2 with
                    | c :: l3 => if w3 a b c then strip w2 w3 l3 else l
                    | [] => l
                    end
           | [] => l
           end
  | [] => []
  end.

Definition trimStart (l : list ascii) : list ascii := strip ws2 ws3 l.

Definition trimEnd (l : list ascii) : list ascii :=
  rev (strip (fun b a => ws2 a b) (fun c b a => ws3 a b c) (rev l)).

Definition trim (s : string) : string :=
  of_chars (trimEnd (trimStart (chars s))).

(** ** Regular expressions

    The fragment the program's one pattern is written in: a character
    set of one character or its complement, [+] on a character set, [?],
    sequence and (capturing) group.  Matching is by backtracking, greedy
    quantifiers first, as in ECMAScript: [rmatch r s n k] matches [r] at
    the start of [s], [n] characters into the attempt, and hands what
    remains to the continuation [k]; the result is the length of the
    whole match. *)
Inductive CharSet : Type :=
| Only (c : ascii)
| Except (c : ascii).

Definition accepts (cs : CharSet) (c : ascii) : bool :=
  match cs with
  | Only a => Ascii.eqb c a
  | Except a => negb (Ascii.eqb c a)
  end.

Inductive Regex : Type :=
| Chr (cs : CharSet)
| Plus (cs : CharSet)
| Opt (r : Regex)
| Seq (r1 r2 : Regex)
| Group (r : Regex).

Fixpoint plus_match (cs : CharSet) (s : string) (n : nat)
    (k : string -> nat -> option nat) : option nat :=
  match s with
  | String c s' =>
      if accepts cs c then
        match plus_match cs s' (S n) k with
        | Some r => Some r
        | None => k s' (S n)
        end
      else None
  | EmptyString => None
  end.

Fixpoint rmatch (r : Regex) (s : string) (n : nat)
    (k : string -> nat -> option nat) : option nat :=
  match r with
  | Chr cs =>
      match s with
      | String c s' => if accepts cs c then k s' (S n) else None
      | EmptyString => None
      end
  | Plus cs => plus_match cs s n k
  | Opt r1 =>
      match rmatch r1 s n k with
      | Some m => Some m
      | None => k s n
      end
  | Seq r1 r2 => rmatch r1 s n (fun s' n' => rmatch r2 s' n' k)
  | Group r1 => rmatch r1 s n k
  end.

(** A literal string. *)
Fixpoint lit (s : string) (r : Regex) : Regex :=
  match s with
  | EmptyString => r
  | String c s' => Seq (Chr (Only c)) (lit s' r)
  end.

(** The length of the match of [r] at the start of [s], if there is one. *)
Definition match_here (r : Regex) (s : string) : option nat :=
  rmatch r s 0 (fun _ n => Some n).

(** [s.match(r)] for a pattern with the [g] flag that matches no empty
    string: all matches, leftmost first, each search resuming where the
    previous match ended ([skip] counts the characters of a match still
    to be passed over).  No match is [null] in JavaScript and [[]] here;
    the program treats [null] as no matches. *)
Fixpoint match_all (r : Regex) (s : string) (skip : nat) : list string :=
  match s with
  | EmptyString => []
  | String _ s' =>
      match skip with
      | S skip' => match_all r s' skip'
      | O =>
          match match_here r s with
          | Some n => substring 0 n s :: match_all r s' (pred n)
          | None => match_all r s' 0
          end
      end
  end.

(** ** [[...new Set(array)]]: the distinct elements, in the order of
    their first occurrence. *)
Definition Set_add (seen : list string) (x : string) : list string :=
  if existsb (String.eqb x) seen then seen else (seen ++ [x])%list.

Definition Set_of (l : list string) : list string :=
  fold_left Set_add l [].

End js.

(* ===================================================================== *)
(** * mcp.ts                                                               *)
(* ===================================================================== *)

Module mcp.

Definition MCP_URL (env : Env) : string :=
  js_or (process_env env "MCP_URL") "https://iab-docs.apti.jp/mcp".

(** [/\[([^\]]+)\]\((https?:\/\/[^\)]+)\)/g] *)
Definition LINK : js.Regex :=
  js.Seq (js.Chr (js.Only "["))
 (js.Seq (js.Group (js.Plus (js.Except "]")))
 (js.Seq (js.Chr (js.Only "]"))
 (js.Seq (js.Chr (js.Only "("))
 (js.Seq (js.Group
            (js.lit "http"
            (js.Seq (js.Opt (js.Chr (js.Only "s")))
            (js.lit "://"
            (js.Plus (js.Except ")"))))))
         (js.Chr (js.Only ")")))))).

(** The body of the loop over [result.content]: a text item adds its text
    and a blank line to [content] and its links to [sources]. *)
Definition collect (acc : string * list string) (item : ContentItem)
  : string * list string :=
  let (content, sources) := acc in
  match itemText item with
  | Some text =>
      if String.eqb (itemType item) "text"
      then (content ++ text ++ js.LF ++ js.LF,
            (sources ++ js.match_all LINK text 0)%list)
      else acc
  | None => acc
  end.

(** From [let content = ''] to the [return] of [searchDocuments]. *)
Definition extract (result : CallToolResult) : SearchResult :=
  let (content, sources) :=
    match resultContent result with
    | Some items => fold_left collect items ("", [])
    | None => ("", [])
    end in
  mkSearchResult (js.trim content) (js.Set_of sources).

Section WithEnv.
Variable env : Env.

(** [await client.connect(transport)] *)
Definition connect (url : string) : M unit :=
  call (fun h => mcp_connect env h url) (McpConnect url).

(** [await client.listTools()] *)
Definition listTools : M (list ToolInfo) :=
  call (mcp_listTools env) McpListTools.

(** [await client.callTool({ name, arguments })] *)
Definition callTool (name : string) (args : JsValue) : M CallToolResult :=
  call (fun h => mcp_callTool env h name args) (McpCallTool name args).

(** [await client.close()] *)
Definition close : M unit :=
  call (mcp_close env) McpClose.

Definition getClient : M Client :=
  st <- get ;;
  match client st with
  | Some c => ret c
  | None =>
      url <- await (new_URL env (MCP_URL env)) ;;
      let c := mkClient "iab-docs-bot" "1.0.0" in
      st <- get ;;
      put (set_client (Some c) st) ;;
      connect url ;;
      tools <- listTools ;;
      ret c
  end.

(** The predicate of [tools.find]. *)
Definition is_search_tool (t : ToolInfo) : bool :=
  js.includes (js.toLowerCase (toolName t)) "search"
  || js.includes (js.toLowerCase (toolName t)) "query".

Definition searchDocuments (query : string) : M SearchResult :=
  mcpClient <- getClient ;;
  tools <- listTools ;;
  match find is_search_tool tools with
  | None => ret (mkSearchResult "" [])
  | Some searchTool =>
      result <- callTool (toolName searchTool) (JObj [("query", JStr query)]) ;;
      ret (extract result)
  end.

Definition closeClient : M unit :=
  st <- get ;;
  match client st with
  | Some c =>
      close ;;
      st <- get ;;
      put (set_client None st)
  | None => ret tt
  end.

End WithEnv.
End mcp.

(* ===================================================================== *)
(** * gemini.ts                                                            *)
(* ===================================================================== *)

Module gemini.

Import js.

Definition GEMINI_API_KEY (env : Env) : string :=
  js_or (process_env env "GEMINI_API_KEY") "".

Definition MODEL_NAME (env : Env) : string :=
  js_or (process_env env "GEMINI_MODEL") "gemini-1.5-flash".

(** A string in a condition: the empty string is falsy. *)
Definition truthy (s : string) : bool :=
  match s with
  | EmptyString => false
  | String _ _ => true
  end.

Definition buildSystemPrompt (skillMd : string) : string :=
  let skillSection :=
    if truthy skillMd then
      LF ++ "## ドキュメントの能力と範囲" ++ LF
      ++ LF
      ++ "以下は、このドキュメントがカバーする規格・能力の概要です。質問に回答する際、この情報を参考に適切なドキュメントを検索してください。" ++ LF
      ++ LF
      ++ skillMd ++ LF
    else "" in
  "あなたは IAB Tech Lab ドキュメントの質問に答えるアシスタントです。" ++ LF
  ++ skillSection ++ LF
  ++ "## ルール" ++ LF
  ++ "1. 利用可能なツール検索ツールを使用して、ドキュメントを検索し、質問に答えてください。" ++ LF
  ++ "2. ユーザーの質問に対して、" ++ (if truthy skillMd then "上記の能力と範囲を参考に、" else "") ++ "適切なキーワードで検索を行ってください。" ++ LF
  ++ "3. ツールから得られた情報のみを根拠に回答してください。情報がない場合は正直にそう伝えてください。" ++ LF
  ++ "4. 回答は日本語で、簡潔に行ってください。" ++ LF
  ++ "5. 回答の末尾に、参照したドキュメントのURLを必ずリストアップしてください。" ++ LF
  ++ "6. 複数の規格にまたがる質問の場合、関連する全ての規格から情報を収集してから回答してください。" ++ LF.

Record GenerateAnswerResult := mkResult {
  answer : string;
  success : bool
}.

(** The object [model.startChat({ history: [] })] returns.  The turns it
    accumulates are those recorded in [trace]. *)
Record ChatSession := mkChat {
  chatModel : GenerativeModel
}.

Definition startChat (m : GenerativeModel) : ChatSession := mkChat m.

Definition MAX_ITERATIONS : nat := 10.

Section WithEnv.
Variable env : Env.

(** The two imports from [./mcp.js]. *)
Definition getGeminiTools : M (list FunctionDeclaration) :=
  call (getGeminiTools_ env) GetGeminiTools.

Definition callMcpTool (name : string) (args : JsValue) : M SearchResult :=
  call (fun h => callMcpTool_ env h name args) (CallMcpTool name args).

Definition getModel (tools : list Tool) (systemInstruction : string)
  : M GenerativeModel :=
  if negb (truthy (GEMINI_API_KEY env))
  then raise (Error "GEMINI_API_KEY is not set")
  else
    st <- get ;;
    match genAI st with
    | None => put (set_genAI (Some (mkGenAI (GEMINI_API_KEY env))) st)
    | Some _ => ret tt
    end ;;
    ret (mkModel (MODEL_NAME env) systemInstruction tools).

(** [await chat.sendMessage(msg)], then [result.response]. *)
Definition sendMessage (chat : ChatSession) (msg : Message) : M Response :=
  call (fun h => llm env h (chatModel chat) msg) (SendMessage (chatModel chat) msg).

(** [for (const call of functionCalls) { try { ... } catch { ... } }],
    [parts] being the array the iterations push to. *)
Fixpoint execute_calls (calls : list FunctionCall) (parts : list Part)
  : M (list Part) :=
  match calls with
  | [] => ret parts
  | call :: rest =>
      parts' <-
        catch
          (toolResult <- callMcpTool (callName call) (callArgs call) ;;
           ret (parts ++ [mkPart (callName call)
                            (ResponseContent (content toolResult))])%list)
          (fun err =>
             ret (parts ++ [mkPart (callName call)
                              (ResponseError (message err))])%list) ;;
      execute_calls rest parts'
  end.

(** [while (iteration < MAX_ITERATIONS) { ... }], unrolled at most [fuel]
    times; the result is the pair of [iteration] and [result] when the
    loop is left. *)
Fixpoint tool_loop (fuel : nat) (chat : ChatSession) (iteration : nat)
    (result : Response) : M (nat * Response) :=
  match fuel with
  | O => fun st => (OutOfFuel, st)
  | S fuel' =>
      if (iteration <? MAX_ITERATIONS)%nat then
        match functionCalls result with
        | Some ((_ :: _) as calls) =>
            parts <- execute_calls calls [] ;;
            result' <- sendMessage chat (Parts parts) ;;
            tool_loop fuel' chat (S iteration) result'
        | _ => ret (iteration, result)
        end
      else ret (iteration, result)
  end.

Definition generateAnswer (question : string) : M GenerateAnswerResult :=
  if negb (truthy (GEMINI_API_KEY env))
  then ret (mkResult "設定エラー: GEMINI_API_KEYが設定されていません" false)
  else
    catch
      (toolDeclarations <- getGeminiTools ;;
       let tools := [mkTool toolDeclarations] in
       skillMd <- skill.getSkillContext env ;;
       let systemPrompt := buildSystemPrompt skillMd in
       model <- getModel tools systemPrompt ;;
       let chat := startChat model in
       result <- sendMessage chat (Question question) ;;
       '(iteration, result) <- tool_loop (S MAX_ITERATIONS) chat 0 result ;;
       let answer := text result in
       ret (mkResult answer true))
      (fun err => ret (mkResult "回答の生成中にエラーが発生しました。" false)).

End WithEnv.
End gemini.
(* ===================================================================== *)
(** * Vocabulary of the properties                                         *)
(* ===================================================================== *)

(** From here on [++] is the concatenation of lists. *)
Local Open Scope list_scope.

(** A scope-document fetch fails when the transport throws, when the
    status is not 2xx, or when reading the body throws: the three ways
    into the [catch] block of [getSkillContext]. *)
Definition fetch_failed (out : Outcome HttpResponse) : bool :=
  match out with
  | Throw _ => true
  | Ok res => if ok res then match body res with Ok _ => false | Throw _ => true end
              else true
  end.

(** A fetch of the scope document that succeeded. *)
Definition fetch_succeeded (ev : Event) : bool :=
  match ev with
  | Fetch _ out => negb (fetch_failed out)
  | _ => false
  end.

(** [n] calls of [getSkillContext] one after the other: what each
    returned, and the state after the last. *)
Fixpoint getSkillContext_times (env : Env) (n : nat) (st : State)
  : list (Completion string) * State :=
  match n with
  | O => ([], st)
  | S k =>
      let (r, st1) := skill.getSkillContext env st in
      let (rs, st2) := getSkillContext_times env k st1 in
      (r :: rs, st2)
  end.

(* ===================================================================== *)
(** * Scenarios                                                            *)
(* ===================================================================== *)

Definition ECONNREFUSED : JsError := Error "connect ECONNREFUSED".

(** Nothing outside the process answers; the clock advances by one
    millisecond per interaction. *)
Definition offline : Env :=
  {| process_env := fun _ => None;
     clock := fun h => Z.of_nat (length h);
     new_URL := fun u => Ok u;
     http_get := fun _ _ => Throw ECONNREFUSED;
     mcp_connect := fun _ _ => Throw ECONNREFUSED;
     mcp_listTools := fun _ => Throw ECONNREFUSED;
     mcp_callTool := fun _ _ _ => Throw ECONNREFUSED;
     mcp_close := fun _ => Ok tt;
     getGeminiTools_ := fun _ => Throw ECONNREFUSED;
     callMcpTool_ := fun _ _ _ => Throw ECONNREFUSED;
     llm := fun _ _ _ => Throw ECONNREFUSED |}.

(** Variations of an environment. *)
Definition with_process_env (f : string -> option string) (env : Env) : Env :=
  mkEnv f (clock env) (new_URL env) (http_get env)
        (mcp_connect env) (mcp_listTools env) (mcp_callTool env) (mcp_close env)
        (getGeminiTools_ env) (callMcpTool_ env) (llm env).

Definition with_http_get (f : History -> string -> Outcome HttpResponse) (env : Env)
  : Env :=
  mkEnv (process_env env) (clock env) (new_URL env) f
        (mcp_connect env) (mcp_listTools env) (mcp_callTool env) (mcp_close env)
        (getGeminiTools_ env) (callMcpTool_ env) (llm env).

Definition with_endpoint
    (connect : History -> string -> Outcome unit)
    (listTools : History -> Outcome (list ToolInfo))
    (callTool : History -> string -> JsValue -> Outcome CallToolResult)
    (env : Env) : Env :=
  mkEnv (process_env env) (clock env) (new_URL env) (http_get env)
        connect listTools callTool (mcp_close env)
        (getGeminiTools_ env) (callMcpTool_ env) (llm env).

Definition with_tools
    (getGeminiTools : History -> Outcome (list FunctionDeclaration))
    (callMcpTool : History -> string -> JsValue -> Outcome SearchResult)
    (env : Env) : Env :=
  mkEnv (process_env env) (clock env) (new_URL env) (http_get env)
        (mcp_connect env) (mcp_listTools env) (mcp_callTool env) (mcp_close env)
        getGeminiTools callMcpTool (llm env).

Definition with_llm (f : History -> GenerativeModel -> Message -> Outcome Response)
    (env : Env) : Env :=
  mkEnv (process_env env) (clock env) (new_URL env) (http_get env)
        (mcp_connect env) (mcp_listTools env) (mcp_callTool env) (mcp_close env)
        (getGeminiTools_ env) (callMcpTool_ env) f.

(** As [offline], but the scope document is served. *)
Definition skill_served (doc : string) : Env :=
  with_http_get (fun _ _ => Ok (mkHttpResponse 200 (Ok doc))) offline.

(** As [offline], but the scope-document endpoint answers 503. *)
Definition skill_unavailable : Env :=
  with_http_get (fun _ _ => Ok (mkHttpResponse 503 (Ok "Service Unavailable"))) offline.

(** A process that cached the scope document two hours ago (the clock of
    [offline] starts at 0). *)
Definition stale_state : State :=
  mkState (Some "# scope") (- (2 * skill.CACHE_TTL_MS)) None None [].

(** ** Tool calls of one model turn *)

Definition add_events (evs : History) (st : State) : State :=
  mkState (cachedContent st) (cachedAt st) (client st) (genAI st)
          (trace st ++ evs)%list.

(** The requested calls of one turn, invoked one after the other in the
    order of the requests, each with what it gave. *)
Fixpoint invocations (env : Env) (h : History) (calls : list FunctionCall)
  : list (FunctionCall * Outcome SearchResult) :=
  match calls with
  | [] => []
  | call :: rest =>
      let out := callMcpTool_ env h (callName call) (callArgs call) in
      (call, out)
        :: invocations env (h ++ [CallMcpTool (callName call) (callArgs call) out])%list rest
  end.

(** The tool-result turn of an invocation: the text content of the
    result, or the message of the error. *)
Definition part_of (inv : FunctionCall * Outcome SearchResult) : Part :=
  let (call, out) := inv in
  mkPart (callName call)
    (match out with
     | Ok toolResult => ResponseContent (content toolResult)
     | Throw err => ResponseError (message err)
     end).

Definition event_of (inv : FunctionCall * Outcome SearchResult) : Event :=
  let (call, out) := inv in
  CallMcpTool (callName call) (callArgs call) out.

(** A response that requests at least one tool call. *)
Definition requests_tools (r : Response) : bool :=
  match functionCalls r with
  | Some (_ :: _) => true
  | _ => false
  end.

(** ** Results of [generateAnswer] that report a failure *)

Definition configuration_failure : gemini.GenerateAnswerResult :=
  gemini.mkResult "設定エラー: GEMINI_API_KEYが設定されていません" false.

Definition generation_failure : gemini.GenerateAnswerResult :=
  gemini.mkResult "回答の生成中にエラーが発生しました。" false.

(** ** Scenarios of the agent loop *)

Definition search_vast : FunctionCall :=
  mkFunctionCall "search_docs" (JObj [("query", JStr "VAST 4.2")]).

Definition lookup_spec : FunctionCall :=
  mkFunctionCall "lookup" (JObj [("id", JNum 7)]).

(** The API key is configured. *)
Definition with_key : Env -> Env :=
  with_process_env (fun k => if String.eqb k "GEMINI_API_KEY" then Some "key" else None).

(** A model that answers every message by requesting the same three tool
    calls, two of them identical, and numbers its responses; a catalog in
    which [search_docs] works and every other name fails. *)
Definition indecisive : Env :=
  with_key
    (with_tools
       (fun _ => Ok [mkFunctionDeclaration "search_docs" "Search" JNull])
       (fun _ name _ =>
          if String.eqb name "search_docs"
          then Ok (mkSearchResult "VAST is a video ad serving template." [])
          else Throw (Error "Unknown tool"))
       (with_llm
          (fun h _ _ =>
             Ok (mkResponse (Some [search_vast; lookup_spec; search_vast])
                   ("round " ++ string_of_Z (Z.of_nat (count is_send h)))%string))
          offline)).

(** The API key is configured but the tool catalog cannot be obtained. *)
Definition catalog_down : Env :=
  with_tools (fun _ => Throw ECONNREFUSED) (callMcpTool_ indecisive) indecisive.

(** ** Tool responses *)

(** The text segments of a response, in response order: the items tagged
    ["text"] whose text is a string. *)
Definition text_segments (items : list ContentItem) : list string :=
  flat_map (fun item =>
              match itemText item with
              | Some text => if String.eqb (itemType item) "text" then [text] else []
              | None => []
              end) items.

(** A text segment. *)
Definition as_text (text : string) : ContentItem :=
  mkContentItem "text" (Some text).

(** Every segment followed by a blank line, one after the other. *)
Fixpoint blank_line_joined (segments : list string) : string :=
  match segments with
  | [] => ""
  | text :: rest => (text ++ js.LF ++ js.LF ++ blank_line_joined rest)%string
  end.

(** All the links of a response, segment by segment, repetitions
    included. *)
Definition all_links (items : list ContentItem) : list string :=
  flat_map (fun text => js.match_all mcp.LINK text 0) (text_segments items).

(** A string none of whose characters is [c]. *)
Fixpoint free_of (c : ascii) (s : string) : bool :=
  match s with
  | EmptyString => true
  | String a s' => negb (Ascii.eqb a c) && free_of c s'
  end.

(** A markdown link [[label](url)] whose [url] has the scheme http or
    https: a label of at least one character, none of them a closing
    bracket, and after [http://] or [https://] at least one character,
    none of them a closing parenthesis. *)
Inductive is_link : string -> Prop :=
| link (label : string) (secure : bool) (rest : string) :
    label <> "" -> free_of "]" label = true ->
    rest <> "" -> free_of ")" rest = true ->
    is_link ("[" ++ label ++ "](" ++ (if secure then "https" else "http")
                 ++ "://" ++ rest ++ ")")%string.

(** A text without an opening bracket. *)
Fixpoint bracket_free (s : string) : bool :=
  match s with
  | EmptyString => true
  | String c s' => negb (Ascii.eqb c "[") && bracket_free s'
  end.

(** ** Scenarios of the tool-serving endpoint *)

(** The handle [new Client({ name: 'iab-docs-bot', version: '1.0.0' })]. *)
Definition THE_CLIENT : Client := mkClient "iab-docs-bot" "1.0.0".

Definition connected (h : History) : bool :=
  existsb (fun ev => match ev with McpConnect _ (Ok _) => true | _ => false end) h.

Definition NOT_CONNECTED : JsError := Error "Not connected".

(** The answer of the endpoint of the scenarios below to a search. *)
Definition vast_result : CallToolResult :=
  mkCallToolResult
    (Some [mkContentItem "text" (Some "VAST 4.2: see [VAST](https://iabtechlab.com/vast).");
           mkContentItem "image" None;
           mkContentItem "text" (Some "Also [VAST](https://iabtechlab.com/vast) and [VMAP](https://iabtechlab.com/vmap)")]).

(** An endpoint that refuses the first connection and accepts every
    later one; once connected it lists [catalog] and answers every call
    with [vast_result]. *)
Definition refuses_first_connection (catalog : list ToolInfo) : Env :=
  with_endpoint
    (fun h _ => if (count is_connect h =? 0)%nat then Throw ECONNREFUSED else Ok tt)
    (fun h => if connected h then Ok catalog else Throw NOT_CONNECTED)
    (fun h _ _ => if connected h then Ok vast_result else Throw NOT_CONNECTED)
    offline.

(** An endpoint that accepts connections, lists [catalog] and answers
    every call with [result]. *)
Definition docs_online (catalog : list ToolInfo) (result : CallToolResult) : Env :=
  with_endpoint (fun _ _ => Ok tt) (fun _ => Ok catalog) (fun _ _ _ => Ok result) offline.

(** As [docs_online], but every call of a tool fails. *)
Definition calls_fail (catalog : list ToolInfo) : Env :=
  with_endpoint (fun _ _ => Ok tt) (fun _ => Ok catalog)
    (fun _ _ _ => Throw (Error "MCP error -32602: Unknown tool")) offline.

Definition search_catalog : list ToolInfo :=
  [mkToolInfo "list_specs" None; mkToolInfo "IAB_Search_Docs" (Some "Full-text search")].

Definition fetch_only_catalog : list ToolInfo :=
  [mkToolInfo "list_specs" None; mkToolInfo "fetch_page" None].

(* ===================================================================== *)
(** * Further vocabulary                                                   *)
(* ===================================================================== *)

Definition is_listTools (ev : Event) : bool :=
  match ev with McpListTools _ => true | _ => false end.
Definition is_close (ev : Event) : bool :=
  match ev with McpClose _ => true | _ => false end.
Definition is_question (ev : Event) : bool :=
  match ev with SendMessage _ (Question _) _ => true | _ => false end.
Definition is_invocation (ev : Event) : bool :=
  match ev with CallMcpTool _ _ _ => true | _ => false end.

(** ** What a history says about the scope document *)

(** The text a fetch delivered, when it succeeded. *)
Definition fetched_text (out : Outcome HttpResponse) : option string :=
  match out with
  | Ok res => if ok res then match body res with Ok text => Some text | Throw _ => None end
              else None
  | Throw _ => None
  end.

(** Reading a history from its start: the last clock reading, and the
    last successful fetch with the clock reading that preceded it. *)
Definition observe (acc : Z * option (Z * string)) (ev : Event)
  : Z * option (Z * string) :=
  match ev with
  | DateNow t => (t, snd acc)
  | Fetch _ out =>
      match fetched_text out with
      | Some text => (fst acc, Some (fst acc, text))
      | None => acc
      end
  | _ => acc
  end.

Definition last_fetch (h : History) : option (Z * string) :=
  snd (fold_left observe h (0, None)).

(** The cache holds what [last_fetch] says. *)
Definition cache_reflects (st : State) : Prop :=
  match last_fetch (trace st) with
  | Some (t, text) => cachedContent st = Some text /\ cachedAt st = t
  | None => cachedContent st = None /\ cachedAt st = 0
  end.

(** A process that cached the scope document at time [t] and has not
    interacted since (the clock of [offline] then reads 0). *)
Definition cached_at (t : Z) : State :=
  mkState (Some "# scope") t None None [].

(** ** Events of the agent loop *)

(** What the loop of a chat may add to the history: invocations of tools
    and tool-result messages sent through that chat. *)
Definition loop_event (chat : gemini.ChatSession) (ev : Event) : Prop :=
  match ev with
  | CallMcpTool _ _ _ => True
  | SendMessage m (Parts _) _ => m = gemini.chatModel chat
  | _ => False
  end.

(** An event that is neither a clock reading nor a fetch. *)
Definition not_of_skill (ev : Event) : Prop :=
  match ev with
  | DateNow _ | Fetch _ _ => False
  | _ => True
  end.

(** ** Further scenarios of the agent loop *)

Definition search_declaration : FunctionDeclaration :=
  mkFunctionDeclaration "search_docs" "Search" JNull.

(** The tools of [indecisive]: the catalog is obtained, [search_docs]
    works and every other name fails. *)
Definition with_search_docs : Env -> Env :=
  with_tools
    (fun _ => Ok [search_declaration])
    (fun _ name _ =>
       if String.eqb name "search_docs"
       then Ok (mkSearchResult "VAST is a video ad serving template." [])
       else Throw (Error "Unknown tool")).

(** A model that answers every message at once, without any tool. *)
Definition decisive : Env :=
  with_key
    (with_search_docs
       (with_llm (fun _ _ _ => Ok (mkResponse None "VAST is a template."))
          (skill_served "# scope"))).

(** A model that asks for two tools on the question, one of which fails,
    and answers when it gets their results; its answer comes with an
    empty array of function calls. *)
Definition one_round : Env :=
  with_key
    (with_search_docs
       (with_llm
          (fun _ _ msg =>
             match msg with
             | Question _ => Ok (mkResponse (Some [search_vast; lookup_spec]) "")
             | Parts _ => Ok (mkResponse (Some []) "VAST is a template.")
             end)
          (skill_served "# scope"))).




(** ** Further scenarios of the tool-serving endpoint *)

(** The URL parser rejects the configured URL. *)
Definition bad_url : Env :=
  mkEnv (fun k => if String.eqb k "MCP_URL" then Some "iab-docs/mcp" else None)
        (clock offline) (fun _ => Throw (Error "Invalid URL")) (http_get offline)
        (fun _ _ => Ok tt) (fun _ => Ok []) (mcp_callTool offline) (mcp_close offline)
        (getGeminiTools_ offline) (callMcpTool_ offline) (llm offline).

(** The endpoint accepts connections but fails the first listing of its
    tools; later it lists [catalog] and answers with [vast_result]. *)
Definition first_listing_fails (catalog : list ToolInfo) : Env :=
  with_endpoint
    (fun _ _ => Ok tt)
    (fun h => if (count is_listTools h =? 0)%nat
              then Throw (Error "Request timed out") else Ok catalog)
    (fun _ _ _ => Ok vast_result)
    offline.

(** The endpoint is up but refuses to close. *)
Definition close_fails : Env :=
  mkEnv (process_env offline) (clock offline) (new_URL offline) (http_get offline)
        (fun _ _ => Ok tt) (fun _ => Ok search_catalog) (fun _ _ _ => Ok vast_result)
        (fun _ => Throw (Error "Connection closed"))
        (getGeminiTools_ offline) (callMcpTool_ offline) (llm offline).

(** A catalog with a query tool in front of a search tool. *)
Definition two_candidates : list ToolInfo :=
  [mkToolInfo "list_specs" None;
   mkToolInfo "RunQuery" None;
   mkToolInfo "search_docs" None].

(** ** Order of the sources *)

(** The elements of [l] not in [seen] and not met before, in the order
    in which they are met. *)
Fixpoint first_occurrences (seen l : list string) : list string :=
  match l with
  | [] => []
  | x :: l' =>
      if existsb (String.eqb x) seen then first_occurrences seen l'
      else x :: first_occurrences (seen ++ [x]) l'
  end.

(** A text made of the strings [m] of [parts], each followed by its
    [p], after [p0]. *)
Fixpoint interleave (p0 : string) (parts : list (string * string)) : string :=
  match parts with
  | [] => p0
  | (m, p) :: rest => (p0 ++ m ++ interleave p rest)%string
  end.

(** ** A response of an image and a resource link only *)
Definition no_text_items : list ContentItem :=
  [mkContentItem "image" None; mkContentItem "resource_link" (Some "[a](http://x)");
   mkContentItem "text" None].

(** Two links and a text that holds the first of them twice. *)
Definition vast_link : string := "[VAST 4.2](https://iabtechlab.com/vast)".
Definition vmap_link : string := "[VMAP](http://iabtechlab.com/vmap)".
Definition three_links : list (string * string) :=
  [(vast_link, " and "); (vmap_link, ", then "); (vast_link, ".")].

(* ===================================================================== *)
(** * Properties of skill.ts                                               *)
(* ===================================================================== *)

Unset Implicit Arguments.

Import skill.

(** ** Running programs *)

(** Expose the binds, catches and state accesses of a program. *)
Ltac run_M :=
  cbn [bind ret catch raise get put Monad_M MonadExc_M MonadState_M];
  unfold bindM, try_catch, retM, throw.

Lemma call_eq {A : Type} (ask : History -> Outcome A) (ev : Outcome A -> Event)
    (st : State) :
  call ask ev st =
    (match ask (trace st) with Ok a => Normal a | Throw e => Abrupt e end,
     emit (ev (ask (trace st))) st).
Proof.
  unfold call, interact, await. run_M.
  destruct (ask (trace st)); reflexivity.
Qed.

Lemma count_app (p : Event -> bool) (h1 h2 : History) :
  count p (h1 ++ h2)%list = (count p h1 + count p h2)%nat.
Proof. unfold count. rewrite filter_app, length_app. reflexivity. Qed.

(** One call of [getSkillContext], case by case. *)
Lemma getSkillContext_eq (env : Env) (st : State) :
  let now := clock env (trace st) in
  let st0 := emit (DateNow now) st in
  let out := http_get env (trace st0) (SKILL_MD_URL env) in
  let st1 := emit (Fetch (SKILL_MD_URL env) out) st0 in
  getSkillContext env st =
    if fresh st now then (Normal (cached_or_empty st), st0)
    else if fetch_failed out then (Normal (cached_or_empty st), st1)
    else match out with
         | Ok (mkHttpResponse _ (Ok text)) =>
             (Normal text, set_cachedAt now (set_cachedContent (Some text) st1))
         | _ => (Normal (cached_or_empty st), st1)
         end.
Proof.
  cbv zeta.
  unfold getSkillContext, Date_now, fetch, interact. run_M. cbn [fst snd].
  change (fresh (emit (DateNow (clock env (trace st))) st) (clock env (trace st)))
    with (fresh st (clock env (trace st))).
  destruct (fresh st (clock env (trace st))); [reflexivity|].
  rewrite call_eq.
  destruct (http_get env _ _) as [[s [t|e]]|e]; cbn; unfold ok; cbn;
    try destruct ((200 <=? s) && (s <=? 299))%bool; reflexivity.
Qed.

(** [getSkillContext] never throws. *)
Lemma getSkillContext_returns (env : Env) (st : State) :
  exists s, fst (getSkillContext env st) = Normal s.
Proof.
  rewrite getSkillContext_eq. cbv zeta.
  destruct (fresh _ _); [eexists; reflexivity|].
  destruct (fetch_failed _); [eexists; reflexivity|].
  destruct (http_get _ _ _) as [[s [t|e]]|e]; eexists; reflexivity.
Qed.

(** No call, failing or not, turns a present cached value into an absent
    one. *)
Lemma cache_never_cleared (env : Env) (st : State) (c : string) :
  cachedContent st = Some c ->
  exists c', cachedContent (snd (getSkillContext env st)) = Some c'.
Proof.
  intros Hc. rewrite getSkillContext_eq. cbv zeta.
  destruct (fresh _ _); [exists c; exact Hc|].
  destruct (fetch_failed _); [exists c; exact Hc|].
  destruct (http_get _ _ _) as [[s [t|e]]|e]; cbn; eauto.
Qed.

(** As long as no fetch has succeeded, nothing is cached: the state of
    the cache after any number of calls in a fresh process. *)
Lemma never_fetched_never_cached (env : Env) (n : nat) :
  let st := snd (getSkillContext_times env n initial_state) in
  count fetch_succeeded (trace st) = 0%nat ->
  cachedContent st = None /\ cachedAt st = 0.
Proof.
  cbv zeta.
  assert (Hinv : forall st,
             (count fetch_succeeded (trace st) = 0%nat ->
              cachedContent st = None /\ cachedAt st = 0) ->
             count fetch_succeeded (trace (snd (getSkillContext_times env n st))) = 0%nat ->
             cachedContent (snd (getSkillContext_times env n st)) = None
             /\ cachedAt (snd (getSkillContext_times env n st)) = 0).
  { induction n as [|n IH]; intros st Hst; cbn [getSkillContext_times snd]; [exact Hst|].
    destruct (getSkillContext env st) as [r st1] eqn:Hcall.
    specialize (IH st1).
    destruct (getSkillContext_times env n st1) as [rs st2]. cbn [snd] in *.
    apply IH. clear IH.
    apply (f_equal snd) in Hcall. cbn [snd] in Hcall. subst st1.
    rewrite getSkillContext_eq. cbv zeta.
    destruct (fresh _ _).
    { cbn [snd trace emit cachedContent cachedAt]. rewrite count_app. cbn.
      intros H. apply Hst. lia. }
    set (out := http_get env _ _).
    destruct (fetch_failed out) eqn:Hfail.
    { cbn [snd trace emit cachedContent cachedAt]. rewrite !count_app.
      unfold count at 2 3. cbn [filter fetch_succeeded]. rewrite Hfail. cbn.
      intros H. apply Hst. lia. }
    assert (Hone : count fetch_succeeded [Fetch (SKILL_MD_URL env) out] = 1%nat).
    { unfold count. cbn [filter fetch_succeeded]. now rewrite Hfail. }
    destruct out as [[s [t|e]]|e];
      cbn [snd trace emit set_cachedAt set_cachedContent cachedContent cachedAt];
      rewrite !count_app, Hone; lia. }
  apply Hinv. intros _. split; reflexivity.
Qed.

(** C4. Whatever the state of the cache, a call whose fetch fails (the
    transport throws, the status is not 2xx, or the body cannot be read)
    returns the previously cached value, the empty string when there is
    none, and leaves [cachedContent] and [cachedAt] as they were: a
    failure never replaces a cached value. *)
Theorem failed_fetch_holds_cache (env : Env) (st : State) :
  fetch_failed (http_get env (trace st ++ [DateNow (clock env (trace st))])%list
                         (SKILL_MD_URL env)) = true ->
  exists st',
    getSkillContext env st =
      (Normal (match cachedContent st with Some c => c | None => "" end), st')
    /\ cachedContent st' = cachedContent st
    /\ cachedAt st' = cachedAt st.
Proof.
  intros Hfail.
  rewrite getSkillContext_eq. cbv zeta.
  change (trace (emit (DateNow (clock env (trace st))) st))
    with (trace st ++ [DateNow (clock env (trace st))])%list.
  rewrite Hfail.
  destruct (fresh st (clock env (trace st))); eexists; split; try reflexivity;
    split; reflexivity.
Qed.

(** A stale cached document survives a 503 of the scope-document
    endpoint, with its old timestamp. *)
Lemma failed_fetch_holds_cache_witness :
  fetch_failed
    (http_get skill_unavailable
       (trace stale_state ++ [DateNow (clock skill_unavailable (trace stale_state))])%list
       (SKILL_MD_URL skill_unavailable)) = true
  /\ exists st',
       getSkillContext skill_unavailable stale_state = (Normal "# scope", st')
       /\ cachedContent st' = Some "# scope"
       /\ cachedAt st' = -7200000.
Proof.
  split; [reflexivity|].
  apply (failed_fetch_holds_cache skill_unavailable stale_state). reflexivity.
Defined.

(** C5. A call that finds a cached value younger than one hour returns it
    unchanged and does nothing but read the clock: no fetch, no change of
    the cache.  Hence, of two calls of which the first finds nothing
    fresh and the second is within the freshness window of what is then
    cached, only the first fetches: exactly one network fetch. *)
Theorem fresh_cache_is_served_without_fetch :
  (forall (env : Env) (st : State) (c : string),
     cachedContent st = Some c ->
     clock env (trace st) - cachedAt st < CACHE_TTL_MS ->
     getSkillContext env st = (Normal c, emit (DateNow (clock env (trace st))) st))
  /\
  (forall (env : Env) (st : State) (c : string),
     fresh st (clock env (trace st)) = false ->
     let s1 := snd (getSkillContext env st) in
     cachedContent s1 = Some c ->
     clock env (trace s1) - cachedAt s1 < CACHE_TTL_MS ->
     let s2 := snd (getSkillContext env s1) in
     fst (getSkillContext env s1) = Normal c
     /\ count is_fetch (trace s2) = S (count is_fetch (trace st))).
Proof.
  assert (Hhit : forall (env : Env) (st : State) (c : string),
     cachedContent st = Some c ->
     clock env (trace st) - cachedAt st < CACHE_TTL_MS ->
     getSkillContext env st = (Normal c, emit (DateNow (clock env (trace st))) st)).
  { intros env st c Hc Hage.
    rewrite getSkillContext_eq. cbv zeta.
    unfold fresh, cached_or_empty. rewrite Hc.
    apply Z.ltb_lt in Hage. rewrite Hage. reflexivity. }
  split; [exact Hhit|].
  intros env st c Hstale s1 Hc Hage s2.
  subst s2. rewrite (Hhit env s1 c Hc Hage). cbn [fst snd].
  split; [reflexivity|].
  cbn [trace emit]. rewrite count_app. cbn.
  subst s1. rewrite getSkillContext_eq. cbv zeta. rewrite Hstale.
  destruct (fetch_failed _).
  - cbn [snd trace emit]. rewrite !count_app. cbn. lia.
  - destruct (http_get _ _ _) as [[s [t|e]]|e]; cbn [snd trace emit set_cachedAt set_cachedContent];
      rewrite !count_app; cbn; lia.
Qed.

(** A fresh process, the scope document served: the first call fetches
    it, the second, two milliseconds later, is answered from the cache. *)
Lemma fresh_cache_is_served_without_fetch_witness :
  fresh initial_state (clock (skill_served "# scope") (trace initial_state)) = false
  /\ cachedContent (snd (getSkillContext (skill_served "# scope") initial_state))
     = Some "# scope"
  /\ fst (getSkillContext (skill_served "# scope")
            (snd (getSkillContext (skill_served "# scope") initial_state)))
     = Normal "# scope"
  /\ count is_fetch
       (trace (snd (getSkillContext (skill_served "# scope")
                      (snd (getSkillContext (skill_served "# scope") initial_state)))))
     = 1%nat.
Proof.
  split; [reflexivity|]. split; [reflexivity|].
  apply (proj2 fresh_cache_is_served_without_fetch
           (skill_served "# scope") initial_state "# scope");
    [reflexivity | reflexivity | vm_compute; reflexivity].
Defined.

(** With nothing cached, [n] calls whose fetches all fail perform [n]
    fetches, return the empty string each time and leave the cache
    empty. *)
Lemma failing_calls_all_fetch (env : Env) (n : nat) (st : State) :
  (forall h url, fetch_failed (http_get env h url) = true) ->
  cachedContent st = None ->
  let (rs, st') := getSkillContext_times env n st in
  rs = repeat (Normal "") n
  /\ cachedContent st' = None
  /\ cachedAt st' = cachedAt st
  /\ count is_fetch (trace st') = (count is_fetch (trace st) + n)%nat.
Proof.
  intros Hdown. revert st.
  induction n as [|n IH]; intros st Hc; cbn [getSkillContext_times].
  - repeat split; auto.
  - rewrite getSkillContext_eq. cbv zeta.
    unfold fresh, cached_or_empty. rewrite Hc, Hdown.
    set (st1 := emit _ (emit _ st)).
    specialize (IH st1 Hc).
    destruct (getSkillContext_times env n st1) as [rs st2].
    destruct IH as (Hrs & Hc2 & Hat & Hcount).
    repeat split.
    + cbn. now rewrite Hrs.
    + exact Hc2.
    + exact Hat.
    + rewrite Hcount. subst st1. cbn [trace emit].
      rewrite !count_app. cbn. lia.
Qed.

(** With nothing cached, a call always fetches. *)
Lemma empty_cache_fetches (env : Env) (st : State) :
  cachedContent st = None ->
  count is_fetch (trace (snd (getSkillContext env st)))
  = S (count is_fetch (trace st)).
Proof.
  intros Hc. rewrite getSkillContext_eq. cbv zeta.
  unfold fresh. rewrite Hc.
  destruct (fetch_failed _).
  - cbn [snd trace emit]. rewrite !count_app. cbn. lia.
  - destruct (http_get _ _ _) as [[s [t|e]]|e];
      cbn [snd trace emit set_cachedAt set_cachedContent];
      rewrite !count_app; cbn; lia.
Qed.

(** C10. When nothing has been cached and the fetch fails, the call
    returns the empty string and records nothing: [cachedContent] stays
    null and [cachedAt] stays 0, only the clock reading and the fetch are
    added to the history.  The next call therefore fetches again,
    whatever the endpoint then answers, and while the endpoint keeps
    failing so does every later one: [n] calls make [n] fetches, each
    returning the empty string; neither the failure nor the empty
    fallback is cached. *)
Theorem failure_is_never_cached (env : Env) (st : State) (n : nat) :
  cachedContent st = None ->
  cachedAt st = 0 ->
  let now := clock env (trace st) in
  let out := http_get env (trace st ++ [DateNow now])%list (SKILL_MD_URL env) in
  fetch_failed out = true ->
  let st1 := mkState None 0 (client st) (genAI st)
               (trace st ++ [DateNow now; Fetch (SKILL_MD_URL env) out])%list in
  getSkillContext env st = (Normal "", st1)
  /\
  (forall env' : Env,
     count is_fetch (trace (snd (getSkillContext env' st1)))
     = S (count is_fetch (trace st1)))
  /\
  ((forall h url, fetch_failed (http_get env h url) = true) ->
   fst (getSkillContext_times env n st) = repeat (Normal "") n
   /\ cachedContent (snd (getSkillContext_times env n st)) = None
   /\ cachedAt (snd (getSkillContext_times env n st)) = 0
   /\ count is_fetch (trace (snd (getSkillContext_times env n st)))
      = (count is_fetch (trace st) + n)%nat).
Proof.
  intros Hc Hat now out Hfail st1. split; [|split].
  - rewrite getSkillContext_eq. cbv zeta.
    unfold fresh, cached_or_empty. rewrite Hc.
    change (trace (emit (DateNow (clock env (trace st))) st))
      with (trace st ++ [DateNow now])%list.
    fold out. rewrite Hfail.
    unfold st1, emit. cbn. rewrite Hc, Hat, <- app_assoc. reflexivity.
  - intros env'. now apply empty_cache_fetches.
  - intros Hdown.
    pose proof (failing_calls_all_fetch env n st Hdown Hc) as H.
    destruct (getSkillContext_times env n st) as [rs st'].
    cbn [fst snd]. rewrite <- Hat. exact H.
Qed.

(** A fresh process against a scope-document endpoint that is down: three
    calls, three fetches, nothing cached. *)
Lemma failure_is_never_cached_witness :
  cachedContent initial_state = None
  /\ cachedAt initial_state = 0
  /\ fetch_failed
       (http_get offline
          (trace initial_state ++ [DateNow (clock offline (trace initial_state))])%list
          (SKILL_MD_URL offline)) = true
  /\ getSkillContext offline initial_state
     = (Normal "",
        mkState None 0 None None
          [DateNow 0; Fetch "https://iab-docs.apti.jp/skill.md" (Throw ECONNREFUSED)])
  /\ fst (getSkillContext_times offline 3 initial_state)
     = [Normal ""; Normal ""; Normal ""]
  /\ cachedContent (snd (getSkillContext_times offline 3 initial_state)) = None
  /\ count is_fetch (trace (snd (getSkillContext_times offline 3 initial_state)))
     = 3%nat.
Proof.
  assert (Hdown : forall h url, fetch_failed (http_get offline h url) = true)
    by reflexivity.
  destruct (failure_is_never_cached offline initial_state 3 eq_refl eq_refl eq_refl)
    as (Hcall & _ & Hlater).
  destruct (Hlater Hdown) as (Hrs & Hc & _ & Hn).
  repeat split; assumption.
Defined.

(* ===================================================================== *)
(** * Properties of gemini.ts                                              *)
(* ===================================================================== *)

Import gemini.

Lemma add_events_nil (st : State) : add_events [] st = st.
Proof. destruct st. unfold add_events. cbn. now rewrite app_nil_r. Qed.

Lemma add_events_app (a b : History) (st : State) :
  add_events (a ++ b) st = add_events b (add_events a st).
Proof. unfold add_events. cbn. now rewrite app_assoc. Qed.

Lemma emit_add_events (ev : Event) (st : State) : emit ev st = add_events [ev] st.
Proof. reflexivity. Qed.

Lemma invocations_calls (env : Env) (calls : list FunctionCall) (h : History) :
  map fst (invocations env h calls) = calls.
Proof.
  revert h. induction calls as [|c cs IH]; intros h; cbn; [reflexivity|].
  now rewrite IH.
Qed.

(** The loop over the requested calls never throws; it invokes the calls
    in the order of the requests and pushes one part per call. *)
Lemma execute_calls_eq (env : Env) (calls : list FunctionCall) :
  forall (parts : list Part) (st : State),
    execute_calls env calls parts st =
      (Normal (parts ++ map part_of (invocations env (trace st) calls))%list,
       add_events (map event_of (invocations env (trace st) calls)) st).
Proof.
  induction calls as [|c cs IH]; intros parts st.
  - cbn. unfold retM. now rewrite app_nil_r, add_events_nil.
  - cbn [execute_calls invocations map].
    unfold callMcpTool. run_M. rewrite call_eq.
    destruct (callMcpTool_ env (trace st) (callName c) (callArgs c)) as [r|e];
      rewrite IH; cbn [trace emit part_of event_of];
      rewrite <- app_assoc; cbn [app];
      rewrite emit_add_events, <- add_events_app; reflexivity.
Qed.

Lemma sendMessage_eq (env : Env) (chat : ChatSession) (msg : Message) (st : State) :
  sendMessage env chat msg st =
    let out := llm env (trace st) (chatModel chat) msg in
    (match out with Ok r => Normal r | Throw e => Abrupt e end,
     emit (SendMessage (chatModel chat) msg out) st).
Proof.
  unfold sendMessage. now rewrite call_eq.
Qed.

(** One turn of the [while] loop. *)
Lemma tool_loop_S (env : Env) (fuel : nat) (chat : ChatSession) (it : nat)
    (r : Response) (st : State) :
  tool_loop env (S fuel) chat it r st =
    if ((it <? MAX_ITERATIONS)%nat && requests_tools r)%bool then
      let calls := match functionCalls r with Some l => l | None => [] end in
      let invs := invocations env (trace st) calls in
      let st1 := add_events (map event_of invs) st in
      let msg := Parts (map part_of invs) in
      let out := llm env (trace st1) (chatModel chat) msg in
      let st2 := emit (SendMessage (chatModel chat) msg out) st1 in
      match out with
      | Ok r' => tool_loop env fuel chat (S it) r' st2
      | Throw e => (Abrupt e, st2)
      end
    else (Normal (it, r), st).
Proof.
  cbn [tool_loop]. unfold requests_tools.
  destruct (it <? MAX_ITERATIONS)%nat; [|reflexivity].
  destruct (functionCalls r) as [[|c cs]|]; try reflexivity.
  cbn [andb bind Monad_M]. unfold bindM at 1.
  rewrite execute_calls_eq. cbn [app].
  unfold bindM. rewrite sendMessage_eq. cbv zeta.
  destruct (llm env _ _ _); reflexivity.
Qed.

Lemma count_event_of (p : Event -> bool) (invs : list (FunctionCall * Outcome SearchResult)) :
  (forall n a o, p (CallMcpTool n a o) = false) ->
  count p (map event_of invs) = 0%nat.
Proof.
  intros Hp. unfold count.
  induction invs as [|[c o] invs IH]; cbn; [reflexivity|].
  now rewrite Hp.
Qed.

(** The loop, entered with a counter of at most 10 and enough fuel for
    the rounds that remain, ends; the counter has grown by the number of
    tool exchanges and is at most 10; the loop is left with a response
    that requests no tools or after the tenth round; and the response it
    is left with is the one it was entered with or that of the last
    exchange. *)
Lemma tool_loop_bounded (env : Env) (chat : ChatSession) (fuel : nat) :
  forall (it : nat) (r : Response) (st : State),
    (it <= MAX_ITERATIONS)%nat ->
    (MAX_ITERATIONS - it < fuel)%nat ->
    match tool_loop env fuel chat it r st with
    | (Normal (it', r'), st') =>
        (it <= it' <= MAX_ITERATIONS)%nat
        /\ count is_tool_exchange (trace st')
           = (count is_tool_exchange (trace st) + (it' - it))%nat
        /\ (it' = MAX_ITERATIONS \/ requests_tools r' = false)
        /\ ((it' = it /\ r' = r /\ st' = st)
            \/ exists h ps, trace st' = h ++ [SendMessage (chatModel chat) (Parts ps) (Ok r')])
    | (Abrupt _, st') =>
        (count is_tool_exchange (trace st')
         <= count is_tool_exchange (trace st) + (MAX_ITERATIONS - it))%nat
    | (OutOfFuel, _) => False
    end.
Proof.
  induction fuel as [|fuel IH]; intros it r st Hit Hfuel; [lia|].
  rewrite tool_loop_S.
  destruct (Nat.ltb_spec it MAX_ITERATIONS) as [Hlt|Hge]; cbn [andb].
  - destruct (requests_tools r) eqn:Hreq.
    + cbv zeta.
      set (invs := invocations env (trace st) _).
      set (st1 := add_events (map event_of invs) st).
      set (msg := Parts (map part_of invs)).
      assert (Hst1 : count is_tool_exchange (trace st1) = count is_tool_exchange (trace st)).
      { subst st1. cbn [trace add_events]. rewrite count_app, count_event_of; [lia|reflexivity]. }
      destruct (llm env (trace st1) (chatModel chat) msg) as [r'|e] eqn:Hllm.
      * set (st2 := emit _ st1).
        assert (Hst2 : count is_tool_exchange (trace st2)
                       = S (count is_tool_exchange (trace st))).
        { subst st2. cbn [trace emit]. rewrite count_app, Hst1. cbn. lia. }
        specialize (IH (S it) r' st2 ltac:(lia) ltac:(lia)).
        destruct (tool_loop env fuel chat (S it) r' st2) as [[[it' r'']|e|] st']; [| |exact IH].
        -- destruct IH as (Hle & Hcount & Hexit & Hlast).
           repeat split; try lia; [exact Hexit|].
           right. destruct Hlast as [(_ & -> & ->)|Hlast]; [|exact Hlast].
           exists (trace st1), (map part_of invs). reflexivity.
        -- lia.
      * cbn [trace emit]. rewrite count_app, Hst1.
        change (count is_tool_exchange [SendMessage (chatModel chat) msg (Throw e)])
          with 1%nat.
        lia.
    + repeat split; try lia; auto.
  - repeat split; try lia; auto.
Qed.

Lemma getModel_eq (env : Env) (tools : list Tool) (prompt : string) (st : State) :
  truthy (GEMINI_API_KEY env) = true ->
  getModel env tools prompt st =
    (Normal (mkModel (MODEL_NAME env) prompt tools),
     match genAI st with
     | None => set_genAI (Some (mkGenAI (GEMINI_API_KEY env))) st
     | Some _ => st
     end).
Proof.
  intros Hkey. unfold getModel. rewrite Hkey. cbn.
  unfold bindM. cbn. destruct (genAI st); reflexivity.
Qed.

(** [generateAnswer], step by step. *)
Lemma generateAnswer_eq (env : Env) (q : string) (st : State) :
  generateAnswer env q st =
    if negb (truthy (GEMINI_API_KEY env)) then (Normal configuration_failure, st)
    else
      let o1 := getGeminiTools_ env (trace st) in
      let st1 := emit (GetGeminiTools o1) st in
      match o1 with
      | Throw _ => (Normal generation_failure, st1)
      | Ok decls =>
          match getSkillContext env st1 with
          | (Normal skillMd, st2) =>
              let st3 := match genAI st2 with
                         | None => set_genAI (Some (mkGenAI (GEMINI_API_KEY env))) st2
                         | Some _ => st2
                         end in
              let m := mkModel (MODEL_NAME env) (buildSystemPrompt skillMd)
                               [mkTool decls] in
              let o4 := llm env (trace st3) m (Question q) in
              let st4 := emit (SendMessage m (Question q) o4) st3 in
              match o4 with
              | Throw _ => (Normal generation_failure, st4)
              | Ok r0 =>
                  match tool_loop env (S MAX_ITERATIONS) (startChat m) 0 r0 st4 with
                  | (Normal (_, r), st5) => (Normal (mkResult (text r) true), st5)
                  | (Abrupt _, st5) => (Normal generation_failure, st5)
                  | (OutOfFuel, st5) => (OutOfFuel, st5)
                  end
              end
          | (Abrupt _, st2) => (Normal generation_failure, st2)
          | (OutOfFuel, st2) => (OutOfFuel, st2)
          end
      end.
Proof.
  unfold generateAnswer.
  destruct (truthy (GEMINI_API_KEY env)) eqn:Hkey; [|reflexivity].
  cbn [negb]. cbv zeta.
  cbn [catch MonadExc_M bind Monad_M]. unfold try_catch, bindM at 1.
  unfold getGeminiTools. unfold bindM at 1. rewrite call_eq.
  destruct (getGeminiTools_ env (trace st)) as [decls|e]; [|reflexivity].
  unfold bindM at 1.
  destruct (getSkillContext env _) as [[skillMd|e|] st2]; try reflexivity.
  unfold bindM at 1. rewrite (getModel_eq _ _ _ _ Hkey).
  unfold bindM at 1. rewrite sendMessage_eq. cbv zeta. cbn [chatModel startChat].
  destruct (llm env _ _ _) as [r0|e]; [|reflexivity].
  unfold bindM.
  destruct (tool_loop env _ _ _ _ _) as [[[it r]|e|] st5]; reflexivity.
Qed.

(** [getSkillContext] only reads the clock and fetches. *)
Lemma getSkillContext_count (p : Event -> bool) (env : Env) (st : State) :
  (forall t, p (DateNow t) = false) ->
  (forall u o, p (Fetch u o) = false) ->
  count p (trace (snd (getSkillContext env st))) = count p (trace st).
Proof.
  intros Hnow Hfetch. rewrite getSkillContext_eq. cbv zeta.
  assert (H0 : forall t s, count p (trace (emit (DateNow t) s)) = count p (trace s)).
  { intros t s. cbn [trace emit]. rewrite count_app. unfold count at 2. cbn.
    rewrite Hnow. cbn. lia. }
  assert (H1 : forall u o s, count p (trace (emit (Fetch u o) s)) = count p (trace s)).
  { intros u o s. cbn [trace emit]. rewrite count_app. unfold count at 2. cbn.
    rewrite Hfetch. cbn. lia. }
  destruct (fresh _ _); [apply H0|].
  destruct (fetch_failed _); [cbn [snd]; now rewrite H1, H0|].
  destruct (http_get _ _ _) as [[s [t|e]]|e]; cbn [snd];
    try (now rewrite H1, H0).
  change (trace (set_cachedAt _ (set_cachedContent _ ?s))) with (trace s).
  now rewrite H1, H0.
Qed.

Lemma trace_genAI (env : Env) (st : State) :
  trace (match genAI st with
         | None => set_genAI (Some (mkGenAI (GEMINI_API_KEY env))) st
         | Some _ => st
         end) = trace st.
Proof. destruct (genAI st); reflexivity. Qed.

Lemma truthy_false (s : string) : truthy s = false <-> s = "".
Proof. destruct s; cbn; split; congruence. Qed.

(** A model that requests tools in every response keeps the loop going
    up to the tenth round; the loop is then left with the response to the
    tenth exchange. *)
Lemma tool_loop_indecisive (env : Env) (chat : ChatSession) :
  (forall h m msg, exists r, llm env h m msg = Ok r /\ requests_tools r = true) ->
  forall (fuel it : nat) (r : Response) (st : State),
    requests_tools r = true ->
    (it < MAX_ITERATIONS)%nat ->
    (MAX_ITERATIONS - it < fuel)%nat ->
    exists h ps last st',
      tool_loop env fuel chat it r st = (Normal (MAX_ITERATIONS, last), st')
      /\ trace st' = h ++ [SendMessage (chatModel chat) (Parts ps) (Ok last)]
      /\ count is_tool_exchange (trace st')
         = (count is_tool_exchange (trace st) + (MAX_ITERATIONS - it))%nat.
Proof.
  intros Hall.
  induction fuel as [|fuel IH]; intros it r st Hreq Hit Hfuel; [lia|].
  rewrite tool_loop_S, Hreq.
  destruct (Nat.ltb_spec it MAX_ITERATIONS) as [_|Hge]; [|lia].
  cbn [andb]. cbv zeta.
  set (invs := invocations env (trace st) _).
  set (st1 := add_events (map event_of invs) st).
  set (msg := Parts (map part_of invs)).
  assert (Hst1 : count is_tool_exchange (trace st1) = count is_tool_exchange (trace st)).
  { subst st1. cbn [trace add_events]. rewrite count_app, count_event_of; [lia|reflexivity]. }
  destruct (Hall (trace st1) (chatModel chat) msg) as (r' & Hllm & Hreq').
  rewrite Hllm.
  set (st2 := emit _ st1).
  assert (Hst2 : count is_tool_exchange (trace st2)
                 = S (count is_tool_exchange (trace st))).
  { subst st2. cbn [trace emit]. rewrite count_app, Hst1.
    change (count is_tool_exchange [SendMessage (chatModel chat) msg (Ok r')]) with 1%nat.
    lia. }
  destruct (Nat.eq_dec (S it) MAX_ITERATIONS) as [Hlast|Hmore].
  - destruct fuel as [|fuel]; [lia|].
    rewrite tool_loop_S, Hlast, Nat.ltb_irrefl. cbn [andb].
    exists (trace st1), (map part_of invs), r', st2.
    split; [reflexivity|]. split; [reflexivity|]. rewrite Hst2. lia.
  - destruct (IH (S it) r' st2 Hreq' ltac:(lia) ltac:(lia))
      as (h & ps & last & st' & Heq & Htrace & Hcount).
    exists h, ps, last, st'. split; [exact Heq|]. split; [exact Htrace|].
    rewrite Hcount, Hst2. lia.
Qed.

(** C1. The loop of [generateAnswer] ends, with a counter of at most 10
    that has counted the tool exchanges; whatever the model, the tools
    and the other endpoints do, one call of [generateAnswer] makes at
    most 10 tool exchanges; and when the model requests a tool call in
    every response, there are exactly 10 of them and the call returns
    [success = true] with the text of the response to the tenth, the last
    response of the model. *)
Theorem agent_loop_at_most_ten_rounds :
  (forall (env : Env) (chat : ChatSession) (r : Response) (st : State),
     match tool_loop env (S MAX_ITERATIONS) chat 0 r st with
     | (Normal (iteration, _), st') =>
         (iteration <= 10)%nat
         /\ count is_tool_exchange (trace st')
            = (count is_tool_exchange (trace st) + iteration)%nat
     | (Abrupt _, st') =>
         (count is_tool_exchange (trace st')
          <= count is_tool_exchange (trace st) + 10)%nat
     | (OutOfFuel, _) => False
     end)
  /\
  (forall (env : Env) (question : string) (st : State),
     (count is_tool_exchange (trace (snd (generateAnswer env question st)))
      <= count is_tool_exchange (trace st) + 10)%nat)
  /\
  (forall (env : Env) (question : string) (st : State),
     GEMINI_API_KEY env <> "" ->
     (exists decls, getGeminiTools_ env (trace st) = Ok decls) ->
     (forall h m msg, exists r, llm env h m msg = Ok r /\ requests_tools r = true) ->
     exists h m ps last,
       trace (snd (generateAnswer env question st))
         = h ++ [SendMessage m (Parts ps) (Ok last)]
       /\ fst (generateAnswer env question st) = Normal (mkResult (text last) true)
       /\ count is_tool_exchange (trace (snd (generateAnswer env question st)))
          = (count is_tool_exchange (trace st) + 10)%nat).
Proof.
  assert (Hloop : forall (env : Env) (chat : ChatSession) (r : Response) (st : State),
     match tool_loop env (S MAX_ITERATIONS) chat 0 r st with
     | (Normal (iteration, _), st') =>
         (iteration <= 10)%nat
         /\ count is_tool_exchange (trace st')
            = (count is_tool_exchange (trace st) + iteration)%nat
     | (Abrupt _, st') =>
         (count is_tool_exchange (trace st')
          <= count is_tool_exchange (trace st) + 10)%nat
     | (OutOfFuel, _) => False
     end).
  { intros env chat r st.
    pose proof (tool_loop_bounded env chat (S MAX_ITERATIONS) 0 r st
                  ltac:(lia) ltac:(lia)) as H.
    destruct (tool_loop env _ chat 0 r st) as [[[it r']|e|] st']; [| exact H | exact H].
    destruct H as (Hle & Hcount & _). unfold MAX_ITERATIONS in Hle.
    split; [lia|]. rewrite Hcount. lia. }
  split; [exact Hloop|]. split.
  - intros env q st. rewrite generateAnswer_eq.
    destruct (negb _); [cbn [snd]; lia|]. cbv zeta.
    set (st1 := emit _ st).
    assert (H1 : count is_tool_exchange (trace st1) = count is_tool_exchange (trace st)).
    { subst st1. cbn [trace emit]. rewrite count_app. unfold count at 2. cbn. lia. }
    destruct (getGeminiTools_ env (trace st)) as [decls|e]; [|cbn [snd]; lia].
    pose proof (getSkillContext_count is_tool_exchange env st1
                  ltac:(reflexivity) ltac:(reflexivity)) as H2.
    destruct (getSkillContext env st1) as [[skillMd|e|] st2]; cbn [snd] in *; try lia.
    set (m := mkModel _ _ _).
    set (st3 := match genAI st2 with None => _ | Some _ => _ end).
    assert (H3 : trace st3 = trace st2) by apply trace_genAI.
    set (o4 := llm env (trace st3) m (Question q)).
    set (st4 := emit _ st3).
    assert (H4 : count is_tool_exchange (trace st4) = count is_tool_exchange (trace st)).
    { subst st4. cbn [trace emit]. rewrite count_app, H3. unfold count at 2. cbn. lia. }
    destruct o4 as [r0|e]; [|cbn [snd]; lia].
    pose proof (Hloop env (startChat m) r0 st4) as H5.
    destruct (tool_loop env _ _ 0 r0 st4) as [[[it r]|e|] st5]; cbn [snd]; [| |contradiction].
    + destruct H5 as (Hle & Hcount). lia.
    + lia.
  - intros env q st Hkey (decls & Hdecls) Hall.
    rewrite generateAnswer_eq.
    destruct (truthy (GEMINI_API_KEY env)) eqn:Htruthy;
      [|apply truthy_false in Htruthy; contradiction].
    cbn [negb]. cbv zeta. rewrite Hdecls.
    set (st1 := emit _ st).
    assert (H1 : count is_tool_exchange (trace st1) = count is_tool_exchange (trace st)).
    { subst st1. cbn [trace emit]. rewrite count_app. unfold count at 2. cbn. lia. }
    pose proof (getSkillContext_count is_tool_exchange env st1
                  ltac:(reflexivity) ltac:(reflexivity)) as H2.
    destruct (getSkillContext_returns env st1) as (skillMd & Hskill).
    destruct (getSkillContext env st1) as [c2 st2]. cbn [fst snd] in *. subst c2.
    set (m := mkModel _ _ _).
    set (st3 := match genAI st2 with None => _ | Some _ => _ end).
    assert (H3 : trace st3 = trace st2) by apply trace_genAI.
    destruct (Hall (trace st3) m (Question q)) as (r0 & Hllm & Hreq0).
    rewrite Hllm.
    set (st4 := emit _ st3).
    assert (H4 : count is_tool_exchange (trace st4) = count is_tool_exchange (trace st)).
    { subst st4. cbn [trace emit]. rewrite count_app, H3. unfold count at 2. cbn. lia. }
    destruct (tool_loop_indecisive env (startChat m) Hall (S MAX_ITERATIONS) 0 r0 st4
                Hreq0 ltac:(unfold MAX_ITERATIONS; lia) ltac:(lia))
      as (h & ps & last & st5 & Heq & Htrace & Hcount).
    rewrite Heq. cbn [fst snd].
    exists h, m, ps, last. split; [exact Htrace|]. split; [reflexivity|].
    rewrite Hcount, H4. reflexivity.
Qed.

(** The model of [indecisive] asks for tools eleven times; the answer is
    the text of its eleventh response, after ten tool exchanges. *)
Lemma agent_loop_at_most_ten_rounds_witness :
  GEMINI_API_KEY indecisive <> ""
  /\ (exists decls, getGeminiTools_ indecisive (trace initial_state) = Ok decls)
  /\ (forall h m msg, exists r, llm indecisive h m msg = Ok r /\ requests_tools r = true)
  /\ exists h m ps last,
       trace (snd (generateAnswer indecisive "What is VAST?" initial_state))
         = h ++ [SendMessage m (Parts ps) (Ok last)]
       /\ fst (generateAnswer indecisive "What is VAST?" initial_state)
          = Normal (mkResult (text last) true)
       /\ count is_tool_exchange
            (trace (snd (generateAnswer indecisive "What is VAST?" initial_state)))
          = 10%nat.
Proof.
  assert (Hkey : GEMINI_API_KEY indecisive <> "") by discriminate.
  assert (Hdecls : exists decls, getGeminiTools_ indecisive (trace initial_state) = Ok decls)
    by (eexists; reflexivity).
  assert (Hall : forall h m msg,
             exists r, llm indecisive h m msg = Ok r /\ requests_tools r = true)
    by (intros h m msg; eexists; split; reflexivity).
  split; [exact Hkey|]. split; [exact Hdecls|]. split; [exact Hall|].
  exact (proj2 (proj2 agent_loop_at_most_ten_rounds)
           indecisive "What is VAST?" initial_state Hkey Hdecls Hall).
Defined.

Example indecisive_answer :
  fst (generateAnswer indecisive "What is VAST?" initial_state)
  = Normal (mkResult "round 10" true).
Proof. vm_compute. reflexivity. Qed.

(** C2. Whatever the question, the state of the process and the behaviour
    of the tool functions, the scope-document endpoint and the model,
    [generateAnswer] returns a result: it neither throws nor fails to
    end.  A result with [success = false] carries one of two fixed
    messages.  Without an API key the configuration message is returned
    and nothing at all is done; with a key but a tool catalog that cannot
    be obtained the generic message is returned and the failed catalog
    request is the only interaction: no message is sent to the model. *)
Theorem generateAnswer_never_throws (env : Env) (question : string) (st : State) :
  exists r st',
    generateAnswer env question st = (Normal r, st')
    /\ (success r = false -> r = configuration_failure \/ r = generation_failure)
    /\ (GEMINI_API_KEY env = "" -> r = configuration_failure /\ st' = st)
    /\ (GEMINI_API_KEY env <> "" ->
        forall e, getGeminiTools_ env (trace st) = Throw e ->
          r = generation_failure
          /\ trace st' = trace st ++ [GetGeminiTools (Throw e)]
          /\ count is_send (trace st') = count is_send (trace st)).
Proof.
  rewrite generateAnswer_eq.
  destruct (truthy (GEMINI_API_KEY env)) eqn:Hkey; cbn [negb].
  2:{ exists configuration_failure, st. apply truthy_false in Hkey.
      split; [reflexivity|]. split; [auto|]. split; [auto|].
      intros Hset. contradiction. }
  assert (Hset : GEMINI_API_KEY env <> "").
  { intros H. rewrite H in Hkey. discriminate. }
  cbv zeta.
  destruct (getGeminiTools_ env (trace st)) as [decls|e] eqn:Hdecls.
  2:{ eexists _, _. split; [reflexivity|]. split; [auto|]. split; [contradiction|].
      intros _ e' [= <-]. split; [reflexivity|]. split; [reflexivity|].
      cbn [trace emit]. rewrite count_app. unfold count at 2. cbn. lia. }
  set (st1 := emit _ st).
  destruct (getSkillContext_returns env st1) as (skillMd & Hskill).
  destruct (getSkillContext env st1) as [c2 st2]. cbn [fst] in Hskill. subst c2.
  destruct (llm env _ _ _) as [r0|e].
  2:{ eexists _, _. split; [reflexivity|]. split; [auto|]. split; [contradiction|].
      intros _ e' [=]. }
  match goal with
  | |- context [tool_loop env ?f ?c 0 r0 ?s] =>
      pose proof (tool_loop_bounded env c f 0 r0 s ltac:(lia) ltac:(lia)) as Hloop;
      destruct (tool_loop env f c 0 r0 s) as [[[it r]|e|] st5]
  end; [| |contradiction].
  - eexists _, _. split; [reflexivity|]. split; [cbn; discriminate|].
    split; [contradiction|]. intros _ e' [=].
  - eexists _, _. split; [reflexivity|]. split; [auto|]. split; [contradiction|].
    intros _ e' [=].
Qed.

(** With a key configured and the catalog down, the generic failure is
    returned and the model has not been contacted. *)
Lemma generateAnswer_never_throws_witness :
  GEMINI_API_KEY catalog_down <> ""
  /\ getGeminiTools_ catalog_down (trace initial_state) = Throw ECONNREFUSED
  /\ exists st',
       generateAnswer catalog_down "What is VAST?" initial_state
         = (Normal generation_failure, st')
       /\ trace st' = [GetGeminiTools (Throw ECONNREFUSED)]
       /\ count is_send (trace st') = 0%nat.
Proof.
  assert (Hkey : GEMINI_API_KEY catalog_down <> "") by discriminate.
  split; [exact Hkey|]. split; [reflexivity|].
  destruct (generateAnswer_never_throws catalog_down "What is VAST?" initial_state)
    as (r & st' & Heq & _ & _ & Hdown).
  destruct (Hdown Hkey ECONNREFUSED eq_refl) as (-> & Htrace & Hcount).
  exists st'. split; [exact Heq|]. split; [exact Htrace | exact Hcount].
Defined.

Lemma invocations_nth (env : Env) (calls : list FunctionCall) :
  forall (h : History) (i : nat) (call : FunctionCall) (out : Outcome SearchResult),
    nth_error (invocations env h calls) i = Some (call, out) ->
    nth_error calls i = Some call
    /\ out = callMcpTool_ env (h ++ map event_of (firstn i (invocations env h calls)))
                          (callName call) (callArgs call).
Proof.
  induction calls as [|c cs IH]; intros h i call out Hnth.
  - destruct i; discriminate.
  - destruct i as [|i]; cbn in Hnth.
    + injection Hnth as <- <-. cbn. now rewrite app_nil_r.
    + destruct (IH _ _ _ _ Hnth) as (Hcall & Hout).
      split; [exact Hcall|].
      cbn [invocations firstn map event_of]. rewrite Hout, <- app_assoc. reflexivity.
Qed.

(** C6. When a model turn requests tool calls, the loop invokes them one
    after the other in the order of the requests, each exactly once
    (identical requests are invoked again), and pushes one part per
    request in that order: the [i]-th part bears the name of the [i]-th
    request and carries the text content of its result when the
    invocation succeeded and the message of the error when it failed.  No
    failure of an invocation ends the loop: the parts are then sent to
    the model as the next message and the loop goes on from its
    response. *)
Theorem tool_results_follow_request_order
    (env : Env) (chat : ChatSession) (fuel iteration : nat)
    (result : Response) (st : State) (calls : list FunctionCall) :
  functionCalls result = Some calls ->
  calls <> [] ->
  (iteration < MAX_ITERATIONS)%nat ->
  let invs := invocations env (trace st) calls in
  let parts := map part_of invs in
  let st1 := add_events (map event_of invs) st in
  execute_calls env calls [] st = (Normal parts, st1)
  /\ trace st1 = trace st ++ map event_of invs
  /\ map fst invs = calls
  /\ length parts = length calls
  /\ map partName parts = map callName calls
  /\ (forall i call out,
        nth_error invs i = Some (call, out) ->
        nth_error calls i = Some call
        /\ out = callMcpTool_ env (trace st ++ map event_of (firstn i invs))
                              (callName call) (callArgs call)
        /\ nth_error parts i =
             Some (mkPart (callName call)
                     match out with
                     | Ok toolResult => ResponseContent (content toolResult)
                     | Throw err => ResponseError (message err)
                     end))
  /\ tool_loop env (S fuel) chat iteration result st =
       bindM (sendMessage env chat (Parts parts))
             (fun result' => tool_loop env fuel chat (S iteration) result') st1.
Proof.
  intros Hcalls Hne Hit invs parts st1.
  assert (Hfst : map fst invs = calls) by apply invocations_calls.
  split; [apply execute_calls_eq|].
  split; [reflexivity|]. split; [exact Hfst|].
  split.
  { transitivity (length (map fst invs)); [|now rewrite Hfst].
    unfold parts. now rewrite !length_map. }
  split.
  { transitivity (map callName (map fst invs)); [|now rewrite Hfst].
    unfold parts. rewrite !map_map. apply map_ext. now intros [c o]. }
  split.
  { intros i call out Hnth.
    destruct (invocations_nth env calls (trace st) i call out Hnth) as (Hc & Ho).
    split; [exact Hc|]. split; [exact Ho|].
    unfold parts. rewrite nth_error_map. fold invs. rewrite Hnth. reflexivity. }
  rewrite tool_loop_S. unfold requests_tools. rewrite Hcalls.
  destruct calls as [|c cs]; [contradiction|].
  apply Nat.ltb_lt in Hit. rewrite Hit. cbn [andb]. cbv zeta.
  unfold bindM. rewrite sendMessage_eq. cbv zeta.
  fold invs. fold parts. fold st1.
  destruct (llm env (trace st1) (chatModel chat) (Parts parts)); reflexivity.
Qed.

(** One turn of [indecisive]: three requests, the first and the third
    identical, the second failing; three parts in that order. *)
Lemma tool_results_follow_request_order_witness :
  let r := mkResponse (Some [search_vast; lookup_spec; search_vast]) "" in
  functionCalls r = Some [search_vast; lookup_spec; search_vast]
  /\ [search_vast; lookup_spec; search_vast] <> []
  /\ (0 < MAX_ITERATIONS)%nat
  /\ fst (execute_calls indecisive [search_vast; lookup_spec; search_vast] [] initial_state)
     = Normal
         [mkPart "search_docs" (ResponseContent "VAST is a video ad serving template.");
          mkPart "lookup" (ResponseError "Unknown tool");
          mkPart "search_docs" (ResponseContent "VAST is a video ad serving template.")].
Proof.
  intros r.
  assert (Hne : [search_vast; lookup_spec; search_vast] <> []) by discriminate.
  assert (Hit : (0 < MAX_ITERATIONS)%nat) by (unfold MAX_ITERATIONS; lia).
  split; [reflexivity|]. split; [exact Hne|]. split; [exact Hit|].
  destruct (tool_results_follow_request_order indecisive (mkChat (mkModel "" "" []))
              10 0 r initial_state _ eq_refl Hne Hit) as (Heq & _).
  rewrite Heq. reflexivity.
Defined.

(* ===================================================================== *)
(** * Properties of mcp.ts                                                 *)
(* ===================================================================== *)

Import js mcp.

(** ** [Set_of] *)

Lemma existsb_eqb_In (x : string) (l : list string) :
  existsb (String.eqb x) l = true <-> In x l.
Proof.
  rewrite existsb_exists. split.
  - intros (y & Hy & Heq). apply String.eqb_eq in Heq. now subst.
  - intros H. exists x. split; [exact H | apply String.eqb_refl].
Qed.

Lemma Set_add_In (seen : list string) (x y : string) :
  In y (Set_add seen x) <-> In y seen \/ y = x.
Proof.
  unfold Set_add. destruct (existsb (String.eqb x) seen) eqn:Hx.
  - apply existsb_eqb_In in Hx. split; [auto|]. intros [H| ->]; assumption.
  - rewrite in_app_iff. cbn. intuition congruence.
Qed.

Lemma Set_add_NoDup (seen : list string) (x : string) :
  NoDup seen -> NoDup (Set_add seen x).
Proof.
  intros Hnd. unfold Set_add. destruct (existsb (String.eqb x) seen) eqn:Hx; [exact Hnd|].
  assert (Hnot : ~ In x seen).
  { intros Hin. apply existsb_eqb_In in Hin. congruence. }
  clear Hx. induction Hnd as [|a l Ha Hnd IH]; cbn.
  - constructor; [intros []|constructor].
  - constructor.
    + rewrite in_app_iff. cbn. intros [H|[H|[]]]; [contradiction|].
      subst. apply Hnot. now left.
    + apply IH. intros H. apply Hnot. now right.
Qed.

Lemma fold_Set_add_In (l seen : list string) (y : string) :
  In y (fold_left Set_add l seen) <-> In y seen \/ In y l.
Proof.
  revert seen. induction l as [|x l IH]; intros seen; cbn.
  - tauto.
  - rewrite IH, Set_add_In. intuition congruence.
Qed.

Lemma fold_Set_add_NoDup (l seen : list string) :
  NoDup seen -> NoDup (fold_left Set_add l seen).
Proof.
  revert seen. induction l as [|x l IH]; intros seen Hnd; cbn; [exact Hnd|].
  apply IH, Set_add_NoDup, Hnd.
Qed.

(** Adding distinct new elements appends them in order. *)
Lemma fold_Set_add_distinct (l seen : list string) :
  NoDup (seen ++ l) -> fold_left Set_add l seen = seen ++ l.
Proof.
  revert seen. induction l as [|x l IH]; intros seen Hnd; cbn.
  - now rewrite app_nil_r.
  - assert (Hx : existsb (String.eqb x) seen = false).
    { destruct (existsb (String.eqb x) seen) eqn:Hx; [|reflexivity].
      apply existsb_eqb_In in Hx. apply NoDup_remove_2 in Hnd.
      exfalso. apply Hnd. apply in_or_app. now left. }
    unfold Set_add at 2. rewrite Hx.
    rewrite IH; rewrite <- app_assoc; [reflexivity | exact Hnd].
Qed.

Lemma Set_of_NoDup (l : list string) : NoDup (Set_of l).
Proof. apply fold_Set_add_NoDup. constructor. Qed.

Lemma Set_of_In (l : list string) (y : string) : In y (Set_of l) <-> In y l.
Proof. unfold Set_of. rewrite fold_Set_add_In. cbn. tauto. Qed.

Lemma Set_of_idempotent (l : list string) : Set_of (Set_of l) = Set_of l.
Proof. unfold Set_of at 1. apply (fold_Set_add_distinct (Set_of l) []), Set_of_NoDup. Qed.

(** ** Strings *)

Lemma append_empty_r (s : string) : (s ++ "")%string = s.
Proof. induction s as [|c s IH]; cbn; [reflexivity | now rewrite IH]. Qed.

Lemma append_assoc (a b c : string) : (a ++ (b ++ c) = (a ++ b) ++ c)%string.
Proof. induction a as [|x a IH]; cbn; [reflexivity | now rewrite IH]. Qed.

Lemma chars_append (a b : string) : chars (a ++ b)%string = chars a ++ chars b.
Proof. unfold chars. induction a as [|x a IH]; cbn; [reflexivity | now rewrite IH]. Qed.

(** ** The loop over the items of a response *)

Lemma text_segments_cons (item : ContentItem) (items : list ContentItem) :
  text_segments (item :: items) =
    match itemText item with
    | Some text => if String.eqb (itemType item) "text" then [text] else []
    | None => []
    end ++ text_segments items.
Proof. reflexivity. Qed.

Lemma fold_collect (items : list ContentItem) :
  forall (c : string) (srcs : list string),
    fold_left collect items (c, srcs) =
      ((c ++ blank_line_joined (text_segments items))%string,
       srcs ++ all_links items).
Proof.
  induction items as [|item items IH]; intros c srcs.
  - cbn. unfold all_links. cbn. now rewrite app_nil_r, append_empty_r.
  - cbn [fold_left]. unfold all_links. rewrite text_segments_cons.
    unfold collect at 2.
    destruct (itemText item) as [t|]; [|cbn [app]; apply IH].
    destruct (String.eqb (itemType item) "text"); [|cbn [app]; apply IH].
    rewrite IH. cbn [app flat_map blank_line_joined].
    unfold all_links. rewrite <- app_assoc. f_equal.
    now rewrite <- !append_assoc.
Qed.

Lemma extract_eq (items : list ContentItem) :
  extract (mkCallToolResult (Some items)) =
    mkSearchResult (trim (blank_line_joined (text_segments items)))
                   (Set_of (all_links items)).
Proof.
  unfold extract. cbn [resultContent]. now rewrite fold_collect.
Qed.

(** ** [getClient] and [searchDocuments], step by step *)

Lemma getClient_eq (env : Env) (st : State) :
  getClient env st =
    match client st with
    | Some c => (Normal c, st)
    | None =>
        match new_URL env (MCP_URL env) with
        | Throw e => (Abrupt e, st)
        | Ok url =>
            let st1 := set_client (Some THE_CLIENT) st in
            let o2 := mcp_connect env (trace st1) url in
            let st2 := emit (McpConnect url o2) st1 in
            match o2 with
            | Throw e => (Abrupt e, st2)
            | Ok _ =>
                let o3 := mcp_listTools env (trace st2) in
                let st3 := emit (McpListTools o3) st2 in
                match o3 with
                | Throw e => (Abrupt e, st3)
                | Ok _ => (Normal THE_CLIENT, st3)
                end
            end
        end
    end.
Proof.
  unfold getClient, connect, listTools. run_M. cbn [fst snd].
  destruct (client st); [reflexivity|].
  unfold await. destruct (new_URL env (MCP_URL env)) as [url|e]; [|reflexivity].
  run_M. rewrite call_eq. cbv zeta.
  destruct (mcp_connect env _ url) as [[]|e]; [|reflexivity].
  rewrite call_eq.
  destruct (mcp_listTools env _) as [tools|e]; reflexivity.
Qed.

Lemma searchDocuments_eq (env : Env) (query : string) (st : State) :
  searchDocuments env query st =
    match getClient env st with
    | (Normal _, st1) =>
        let o2 := mcp_listTools env (trace st1) in
        let st2 := emit (McpListTools o2) st1 in
        match o2 with
        | Throw e => (Abrupt e, st2)
        | Ok tools =>
            match find is_search_tool tools with
            | None => (Normal (mkSearchResult "" []), st2)
            | Some searchTool =>
                let args := JObj [("query", JStr query)] in
                let o3 := mcp_callTool env (trace st2) (toolName searchTool) args in
                let st3 := emit (McpCallTool (toolName searchTool) args o3) st2 in
                match o3 with
                | Throw e => (Abrupt e, st3)
                | Ok result => (Normal (extract result), st3)
                end
            end
        end
    | (Abrupt e, st1) => (Abrupt e, st1)
    | (OutOfFuel, st1) => (OutOfFuel, st1)
    end.
Proof.
  unfold searchDocuments, listTools, callTool. run_M.
  destruct (getClient env st) as [[c|e|] st1]; try reflexivity.
  rewrite call_eq. cbv zeta.
  destruct (mcp_listTools env (trace st1)) as [tools|e]; [|reflexivity].
  destruct (find is_search_tool tools) as [t|]; [|reflexivity].
  rewrite call_eq.
  destruct (mcp_callTool env _ _ _) as [result|e]; reflexivity.
Qed.

(** [getClient] makes at most one connection attempt, and none when a
    client handle is cached. *)
Lemma getClient_connects_at_most_once (env : Env) (st : State) :
  (count is_connect (trace (snd (getClient env st)))
   <= count is_connect (trace st) + 1)%nat
  /\ (client st <> None ->
      count is_connect (trace (snd (getClient env st))) = count is_connect (trace st)).
Proof.
  rewrite getClient_eq.
  destruct (client st) as [c|]; [cbn [snd]; split; [lia|reflexivity]|].
  split; [|congruence].
  destruct (new_URL env (MCP_URL env)) as [url|e]; [|cbn [snd]; lia].
  cbv zeta.
  destruct (mcp_connect env _ url) as [[]|e].
  - destruct (mcp_listTools env _) as [tools|e];
      cbn [snd trace emit set_client]; rewrite !count_app; cbn; lia.
  - cbn [snd trace emit set_client]. rewrite !count_app. cbn. lia.
Qed.

(** C3. [getClient] stores the client handle before it awaits the
    connection.  When the connection attempt fails, the exception leaves
    [getClient] with the handle set; from then on, whatever the endpoint
    would answer, [getClient] returns that handle at once and never
    attempts to connect again. *)
Theorem failed_connect_is_never_retried
    (env : Env) (st : State) (url : string) (e : JsError) :
  client st = None ->
  new_URL env (MCP_URL env) = Ok url ->
  mcp_connect env (trace st) url = Throw e ->
  exists st1,
    getClient env st = (Abrupt e, st1)
    /\ client st1 = Some THE_CLIENT
    /\ trace st1 = trace st ++ [McpConnect url (Throw e)]
    /\ forall (env' : Env) (st2 : State),
         client st2 = client st1 ->
         getClient env' st2 = (Normal THE_CLIENT, st2).
Proof.
  intros Hnone Hurl Hconn.
  rewrite getClient_eq, Hnone, Hurl. cbv zeta. cbn [trace set_client].
  rewrite Hconn. eexists. split; [reflexivity|].
  split; [reflexivity|]. split; [reflexivity|].
  intros env' st2 Hc. rewrite getClient_eq, Hc. reflexivity.
Qed.

(** The endpoint refuses the first connection only.  The search that
    follows the failed attempt finds the handle set, does not connect,
    and fails on the client that never connected. *)
Lemma failed_connect_is_never_retried_witness :
  let env := refuses_first_connection search_catalog in
  client initial_state = None
  /\ new_URL env (MCP_URL env) = Ok "https://iab-docs.apti.jp/mcp"
  /\ mcp_connect env (trace initial_state) "https://iab-docs.apti.jp/mcp"
     = Throw ECONNREFUSED
  /\ exists st1,
       getClient env initial_state = (Abrupt ECONNREFUSED, st1)
       /\ client st1 = Some THE_CLIENT
       /\ getClient env st1 = (Normal THE_CLIENT, st1)
       /\ fst (searchDocuments env "VAST" st1) = Abrupt NOT_CONNECTED
       /\ count is_connect (trace (snd (searchDocuments env "VAST" st1))) = 1%nat.
Proof.
  intros env.
  split; [reflexivity|]. split; [reflexivity|]. split; [reflexivity|].
  destruct (failed_connect_is_never_retried env initial_state
              "https://iab-docs.apti.jp/mcp" ECONNREFUSED eq_refl eq_refl eq_refl)
    as (st1 & Heq & Hc & Htrace & Hlater).
  exists st1. split; [exact Heq|]. split; [exact Hc|].
  split; [apply Hlater; reflexivity|].
  vm_compute in Heq. injection Heq as <-.
  split; reflexivity.
Defined.

(** [getClient] only connects and lists the tools. *)
Lemma getClient_count (p : Event -> bool) (env : Env) (st : State) :
  (forall u o, p (McpConnect u o) = false) ->
  (forall o, p (McpListTools o) = false) ->
  count p (trace (snd (getClient env st))) = count p (trace st).
Proof.
  intros Hconn Hlist. rewrite getClient_eq.
  destruct (client st) as [c|]; [reflexivity|].
  destruct (new_URL env (MCP_URL env)) as [url|e]; [|reflexivity].
  cbv zeta.
  destruct (mcp_connect env _ url) as [[]|e].
  - destruct (mcp_listTools env _) as [tools|e];
      cbn [snd trace emit set_client]; rewrite !count_app; unfold count at 2 3; cbn;
      rewrite Hconn, Hlist; cbn; lia.
  - cbn [snd trace emit set_client]. rewrite !count_app. unfold count at 2. cbn.
    rewrite Hconn. cbn. lia.
Qed.

(** C9 (as the code has it). [searchDocuments] does not take the name of
    a tool: it picks the first tool of the catalog whose lower-cased name
    contains ["search"] or ["query"].  When the catalog holds no such
    tool, the search does not fail: it returns the empty result
    [{ content: '', sources: [] }] and invokes nothing.  When the
    invocation of the tool it picked fails, the error of the endpoint is
    thrown to the caller as it is. *)
Theorem missing_search_tool_gives_empty_result
    (env : Env) (query : string) (st st1 : State) (c : Client) (tools : list ToolInfo) :
  getClient env st = (Normal c, st1) ->
  mcp_listTools env (trace st1) = Ok tools ->
  let st2 := emit (McpListTools (Ok tools)) st1 in
  (find is_search_tool tools = None ->
   searchDocuments env query st = (Normal (mkSearchResult "" []), st2)
   /\ count is_callTool (trace st2) = count is_callTool (trace st))
  /\
  (forall (t : ToolInfo) (e : JsError),
     find is_search_tool tools = Some t ->
     mcp_callTool env (trace st2) (toolName t) (JObj [("query", JStr query)]) = Throw e ->
     fst (searchDocuments env query st) = Abrupt e).
Proof.
  intros Hclient Htools st2.
  pose proof (getClient_count is_callTool env st
                ltac:(reflexivity) ltac:(reflexivity)) as Hcount.
  rewrite Hclient in Hcount. cbn [snd] in Hcount.
  split.
  - intros Hnone. rewrite searchDocuments_eq, Hclient. cbv zeta.
    rewrite Htools, Hnone. split; [reflexivity|].
    subst st2. cbn [trace emit]. rewrite count_app, Hcount. cbn. lia.
  - intros t e Hfind Hcall. rewrite searchDocuments_eq, Hclient. cbv zeta.
    rewrite Htools, Hfind. fold st2. now rewrite Hcall.
Qed.

(** A catalog of [list_specs] and [fetch_page]: the search returns the
    empty result and no tool is called. *)
Lemma missing_search_tool_gives_empty_result_witness :
  let env := docs_online fetch_only_catalog vast_result in
  let st1 := snd (getClient env initial_state) in
  getClient env initial_state = (Normal THE_CLIENT, st1)
  /\ mcp_listTools env (trace st1) = Ok fetch_only_catalog
  /\ find is_search_tool fetch_only_catalog = None
  /\ fst (searchDocuments env "VAST" initial_state) = Normal (mkSearchResult "" [])
  /\ count is_callTool (trace (snd (searchDocuments env "VAST" initial_state))) = 0%nat.
Proof.
  intros env st1.
  assert (H1 : getClient env initial_state = (Normal THE_CLIENT, st1)) by reflexivity.
  assert (H2 : mcp_listTools env (trace st1) = Ok fetch_only_catalog) by reflexivity.
  assert (H3 : find is_search_tool fetch_only_catalog = None) by reflexivity.
  split; [exact H1|]. split; [exact H2|]. split; [exact H3|].
  destruct (proj1 (missing_search_tool_gives_empty_result
                     env "VAST" initial_state st1 THE_CLIENT fetch_only_catalog H1 H2) H3)
    as (Heq & Hcount).
  rewrite Heq. split; [reflexivity | exact Hcount].
Defined.

(** C9, as stated, fails: with no search tool in the catalog the
    invocation returns normally, with an empty result. *)
Lemma absent_tool_does_not_fail :
  find is_search_tool fetch_only_catalog = None
  /\ fst (searchDocuments (docs_online fetch_only_catalog vast_result) "VAST"
                          initial_state)
     = Normal (mkSearchResult "" [])
  /\ ~ exists e,
        fst (searchDocuments (docs_online fetch_only_catalog vast_result) "VAST"
                             initial_state)
        = Abrupt e.
Proof.
  split; [reflexivity|]. split; [reflexivity|].
  intros (e & He). vm_compute in He. discriminate.
Qed.

(** The catalog holds a search tool but its invocation is refused by the
    endpoint: the error reaches the caller of [searchDocuments] as it
    was thrown. *)
Example failed_call_is_thrown :
  fst (searchDocuments (calls_fail search_catalog) "VAST" initial_state)
  = Abrupt (Error "MCP error -32602: Unknown tool").
Proof. reflexivity. Qed.

(** ** [trim] *)

(** What [strip] leaves does not start with a white-space byte. *)
Lemma strip_head (w2 : ascii -> ascii -> bool) (w3 : ascii -> ascii -> ascii -> bool)
    (n : nat) :
  forall l : list ascii,
    (List.length l <= n)%nat ->
    match strip w2 w3 l with
    | a :: _ => ws1 a = false
    | [] => True
    end.
Proof.
  induction n as [|n IH]; intros l Hlen.
  - destruct l; [exact I | cbn in Hlen; lia].
  - destruct l as [|a l1]; [exact I|].
    cbn [strip]. destruct (ws1 a) eqn:Ha.
    { apply IH. cbn in Hlen. lia. }
    destruct l1 as [|b l2]; [exact Ha|].
    destruct (w2 a b).
    { apply IH. cbn in Hlen. lia. }
    destruct l2 as [|c l3]; [exact Ha|].
    destruct (w3 a b c); [|exact Ha].
    apply IH. cbn in Hlen. lia.
Qed.

(** A trimmed string does not end in a line feed. *)
Lemma trim_not_ending_in_LF (s : string) (l : list ascii) :
  chars (trim s) <> l ++ ["010"%char].
Proof.
  unfold trim, chars, of_chars. rewrite list_ascii_of_string_of_list_ascii.
  unfold trimEnd. intros H.
  apply (f_equal (@rev ascii)) in H. rewrite rev_involutive, rev_app_distr in H.
  cbn [rev app] in H.
  match type of H with
  | strip ?w2 ?w3 ?x = _ => pose proof (strip_head w2 w3 _ x (le_n _)) as Hhead
  end.
  rewrite H in Hhead. discriminate.
Qed.

(** Segments joined by blank lines end in a line feed. *)
Lemma blank_line_joined_ends_in_LF (segments : list string) :
  segments <> [] ->
  exists l, chars (blank_line_joined segments) = l ++ ["010"%char].
Proof.
  induction segments as [|t rest IH]; intros Hne; [contradiction|].
  cbn [blank_line_joined]. rewrite !chars_append.
  destruct rest as [|t' rest].
  - exists (chars t ++ chars LF). cbn. now rewrite <- app_assoc.
  - destruct (IH ltac:(discriminate)) as (l & Hl). rewrite Hl.
    exists (chars t ++ chars LF ++ chars LF ++ l). now rewrite <- !app_assoc.
Qed.

(** C8 (as the code has it). The content of a search result is the
    concatenation of the text segments of the response, each followed by
    a blank line, in response order, with the white space at both ends
    removed ([content.trim()]).  It therefore never ends in the
    separator: as soon as the response has a text segment it differs from
    the plain concatenation. *)
Theorem content_is_trimmed_concatenation
    (env : Env) (query : string) (st st1 : State) (c : Client)
    (tools : list ToolInfo) (t : ToolInfo) (items : list ContentItem) :
  getClient env st = (Normal c, st1) ->
  mcp_listTools env (trace st1) = Ok tools ->
  find is_search_tool tools = Some t ->
  mcp_callTool env (trace st1 ++ [McpListTools (Ok tools)]) (toolName t)
               (JObj [("query", JStr query)])
    = Ok (mkCallToolResult (Some items)) ->
  exists r,
    fst (searchDocuments env query st) = Normal r
    /\ content r = trim (blank_line_joined (text_segments items))
    /\ (text_segments items <> [] ->
        content r <> blank_line_joined (text_segments items)).
Proof.
  intros Hclient Htools Hfind Hcall.
  rewrite searchDocuments_eq, Hclient. cbv zeta.
  rewrite Htools, Hfind. cbn [trace emit]. rewrite Hcall.
  eexists. split; [reflexivity|]. rewrite extract_eq. cbn [content].
  split; [reflexivity|].
  intros Hne Heq.
  destruct (blank_line_joined_ends_in_LF _ Hne) as (l & Hl).
  rewrite <- Heq in Hl. exact (trim_not_ending_in_LF _ _ Hl).
Qed.

(** A response of two text segments and an image: the content is the two
    segments separated by one blank line, with nothing after the
    second. *)
Lemma content_is_trimmed_concatenation_witness :
  let env := docs_online search_catalog vast_result in
  let st1 := snd (getClient env initial_state) in
  let t := mkToolInfo "IAB_Search_Docs" (Some "Full-text search") in
  let seg1 := "VAST 4.2: see [VAST](https://iabtechlab.com/vast)." in
  let seg2 := "Also [VAST](https://iabtechlab.com/vast) and [VMAP](https://iabtechlab.com/vmap)" in
  getClient env initial_state = (Normal THE_CLIENT, st1)
  /\ mcp_listTools env (trace st1) = Ok search_catalog
  /\ find is_search_tool search_catalog = Some t
  /\ exists r,
       fst (searchDocuments env "VAST" initial_state) = Normal r
       /\ content r = (seg1 ++ LF ++ LF ++ seg2)%string.
Proof.
  intros env st1 t seg1 seg2.
  assert (H1 : getClient env initial_state = (Normal THE_CLIENT, st1)) by reflexivity.
  assert (H2 : mcp_listTools env (trace st1) = Ok search_catalog) by reflexivity.
  assert (H3 : find is_search_tool search_catalog = Some t) by reflexivity.
  split; [exact H1|]. split; [exact H2|]. split; [exact H3|].
  destruct (content_is_trimmed_concatenation env "VAST" initial_state st1 THE_CLIENT
              search_catalog t _ H1 H2 H3 eq_refl) as (r & Hr & Hcontent & _).
  exists r. split; [exact Hr|]. rewrite Hcontent. vm_compute. reflexivity.
Defined.

(** C8, as stated, fails: the content of a response with the single
    segment ["hello"] is ["hello"], not ["hello"] followed by a blank
    line. *)
Lemma content_is_not_the_plain_concatenation :
  text_segments [as_text "hello"] = ["hello"]
  /\ fst (searchDocuments
            (docs_online search_catalog (mkCallToolResult (Some [as_text "hello"])))
            "greeting" initial_state)
     = Normal (mkSearchResult "hello" [])
  /\ "hello" <> blank_line_joined (text_segments [as_text "hello"]).
Proof.
  split; [reflexivity|]. split; [reflexivity|].
  vm_compute. discriminate.
Qed.

(** ** Matching links *)

Lemma substring_0_0 (s : string) : substring 0 0 s = "".
Proof. destruct s; reflexivity. Qed.

(** No link starts at a character other than the opening bracket. *)
Lemma match_all_skip (p rest : string) :
  bracket_free p = true ->
  match_all LINK (p ++ rest)%string 0 = match_all LINK rest 0.
Proof.
  induction p as [|a p IH]; intros Hp; [reflexivity|].
  cbn in Hp. apply andb_prop in Hp. destruct Hp as [Ha Hp].
  apply negb_true_iff in Ha.
  cbn [append match_all]. unfold match_here, LINK. cbn [rmatch accepts].
  rewrite Ha. apply IH, Hp.
Qed.

Lemma match_all_bracket_free (p : string) :
  bracket_free p = true -> match_all LINK p 0 = [].
Proof.
  intros Hp. rewrite <- (append_empty_r p). now rewrite match_all_skip.
Qed.

Lemma match_all_link_a (rest : string) :
  match_all LINK ("[a](http://x)" ++ rest)%string 0
  = "[a](http://x)" :: match_all LINK rest 0.
Proof. cbn. now rewrite substring_0_0. Qed.

Lemma match_all_link_b (rest : string) :
  match_all LINK ("[b](http://y)" ++ rest)%string 0
  = "[b](http://y)" :: match_all LINK rest 0.
Proof. cbn. now rewrite substring_0_0. Qed.


(** ** The pattern matches the links, and only them *)

Lemma length_append (a b : string) :
  String.length (a ++ b)%string = (String.length a + String.length b)%nat.
Proof. induction a as [|x a IH]; cbn; [reflexivity | now rewrite IH]. Qed.

Lemma substring_prefix (a b : string) :
  substring 0 (String.length a) (a ++ b)%string = a.
Proof.
  induction a as [|x a IH]; cbn; [apply substring_0_0 | now rewrite IH].
Qed.

Lemma plus_match_inv (c : ascii) (k : string -> nat -> option nat) (res : nat) :
  forall (s : string) (n : nat),
    plus_match (Except c) s n k = Some res ->
    exists pre post,
      s = (pre ++ post)%string /\ pre <> "" /\ free_of c pre = true
      /\ k post (n + String.length pre)%nat = Some res.
Proof.
  induction s as [|a s IH]; intros n H; [discriminate|].
  cbn [plus_match accepts] in H.
  destruct (negb (Ascii.eqb a c)) eqn:Ha; [|discriminate].
  destruct (plus_match (Except c) s (S n) k) as [r|] eqn:Hrec.
  - injection H as ->.
    destruct (IH (S n) Hrec) as (pre & post & -> & _ & Hfree & Hk).
    exists (String a pre), post. cbn [append free_of String.length].
    rewrite Ha, Hfree, Nat.add_succ_r. repeat split; [discriminate | exact Hk].
  - exists (String a ""), s. cbn [append free_of String.length].
    rewrite Ha, Nat.add_1_r. repeat split; [discriminate | exact H].
Qed.

(** The greedy [+] stops in front of the first character it does not
    accept. *)
Lemma plus_match_upto (c : ascii) (k : string -> nat -> option nat) (res : nat)
    (post : string) :
  forall (pre : string) (n : nat),
    pre <> "" -> free_of c pre = true ->
    k (String c post) (n + String.length pre)%nat = Some res ->
    plus_match (Except c) (pre ++ String c post)%string n k = Some res.
Proof.
  induction pre as [|a pre IH]; intros n Hne Hfree Hk; [contradiction|].
  cbn [free_of] in Hfree. apply andb_prop in Hfree. destruct Hfree as [Ha Hfree].
  cbn [append plus_match accepts]. rewrite Ha.
  destruct pre as [|b pre].
  - cbn [append plus_match accepts]. rewrite Ascii.eqb_refl. cbn [negb].
    cbn [String.length] in Hk. now rewrite Nat.add_1_r in Hk.
  - rewrite IH; [reflexivity | discriminate | exact Hfree |].
    cbn [String.length] in *. now rewrite Nat.add_succ_r in Hk.
Qed.

Lemma Chr_inv (c : ascii) (s : string) (n : nat) (k : string -> nat -> option nat)
    (res : nat) :
  rmatch (Chr (Only c)) s n k = Some res ->
  exists s', s = String c s' /\ k s' (S n) = Some res.
Proof.
  destruct s as [|a s]; [discriminate|]. cbn [rmatch accepts].
  destruct (Ascii.eqb_spec a c) as [->|]; [|discriminate].
  intros H. now exists s.
Qed.

Lemma rmatch_Seq (a b : Regex) (s : string) (n : nat) (k : string -> nat -> option nat) :
  rmatch (Seq a b) s n k = rmatch a s n (fun s' n' => rmatch b s' n' k).
Proof. reflexivity. Qed.

Lemma rmatch_Group (r : Regex) (s : string) (n : nat) (k : string -> nat -> option nat) :
  rmatch (Group r) s n k = rmatch r s n k.
Proof. reflexivity. Qed.

Lemma rmatch_Plus (cs : CharSet) (s : string) (n : nat) (k : string -> nat -> option nat) :
  rmatch (Plus cs) s n k = plus_match cs s n k.
Proof. reflexivity. Qed.

Lemma rmatch_Opt (r : Regex) (s : string) (n : nat) (k : string -> nat -> option nat) :
  rmatch (Opt r) s n k =
    match rmatch r s n k with
    | Some m => Some m
    | None => k s n
    end.
Proof. reflexivity. Qed.

(** Invert the match of a one-character set at the head of a sequence. *)
Ltac chr_inv H :=
  repeat (rewrite rmatch_Seq in H || rewrite rmatch_Group in H);
  apply Chr_inv in H; destruct H as (? & -> & H); cbv beta in H.

Lemma match_here_link_inv (s : string) (n : nat) :
  match_here LINK s = Some n ->
  exists m rest, s = (m ++ rest)%string /\ is_link m /\ n = String.length m.
Proof.
  unfold match_here, LINK. cbn [lit]. intros H.
  chr_inv H.
  rewrite rmatch_Seq, rmatch_Group, rmatch_Plus in H.
  apply plus_match_inv in H. destruct H as (label & s2 & -> & Hlabel & Hfree & H).
  cbv beta in H.
  do 6 chr_inv H.
  assert (Hurl : forall t j,
             rmatch (Plus (Except ")")) t j
               (fun s' n' => rmatch (Chr (Only ")")) s' n' (fun _ n0 => Some n0)) = Some n ->
             exists url rest, t = (url ++ ")" ++ rest)%string /\ url <> ""
                              /\ free_of ")" url = true
                              /\ n = (j + String.length url + 1)%nat).
  { intros t j Ht. rewrite rmatch_Plus in Ht. apply plus_match_inv in Ht.
    destruct Ht as (url & post & -> & Hne & Hf & Hk).
    apply Chr_inv in Hk. destruct Hk as (rest & -> & [= <-]).
    exists url, rest. repeat split; auto. lia. }
  rewrite rmatch_Seq, rmatch_Opt in H.
  match type of H with
  | match ?a with Some _ => _ | None => _ end = _ => destruct a as [r|] eqn:Hs
  end.
  - injection H as ->.
    do 4 chr_inv Hs.
    apply Hurl in Hs. destruct Hs as (url & rest & -> & Hne & Hf & ->).
    exists ("[" ++ label ++ "](" ++ "https" ++ "://" ++ url ++ ")")%string, rest.
    split; [cbn; rewrite <- append_assoc; cbn; now rewrite <- append_assoc|].
    split; [exact (@link label true url Hlabel Hfree Hne Hf)|].
    cbn. rewrite !length_append. cbn. rewrite !length_append. cbn. lia.
  - cbv beta in H. do 3 chr_inv H.
    apply Hurl in H. destruct H as (url & rest & -> & Hne & Hf & ->).
    exists ("[" ++ label ++ "](" ++ "http" ++ "://" ++ url ++ ")")%string, rest.
    split; [cbn; rewrite <- append_assoc; cbn; now rewrite <- append_assoc|].
    split; [exact (@link label false url Hlabel Hfree Hne Hf)|].
    cbn. rewrite !length_append. cbn. rewrite !length_append. cbn. lia.
Qed.

Lemma Chr_fwd (c : ascii) (s : string) (n : nat) (k : string -> nat -> option nat) :
  rmatch (Chr (Only c)) (String c s) n k = k s (S n).
Proof. cbn [rmatch accepts]. now rewrite Ascii.eqb_refl. Qed.

Lemma Chr_mismatch (c a : ascii) (s : string) (n : nat)
    (k : string -> nat -> option nat) :
  Ascii.eqb a c = false -> rmatch (Chr (Only c)) (String a s) n k = None.
Proof. intros H. cbn [rmatch accepts]. now rewrite H. Qed.

(** Match a one-character set at the head of a sequence against the
    character it accepts. *)
Ltac chr_fwd :=
  repeat (rewrite rmatch_Seq || rewrite rmatch_Group);
  rewrite Chr_fwd; cbv beta.

Ltac lengths :=
  repeat (rewrite length_append || cbn [String.length append]); lia.

Lemma match_here_link (m rest : string) :
  is_link m -> match_here LINK (m ++ rest)%string = Some (String.length m).
Proof.
  intros [label secure url Hlabel Hfree Hne Hf].
  unfold match_here, LINK. cbn [lit].
  cbn [append]. rewrite <- append_assoc. cbn [append].
  chr_fwd.
  rewrite rmatch_Seq, rmatch_Group, rmatch_Plus.
  apply plus_match_upto; [exact Hlabel | exact Hfree |].
  do 2 chr_fwd.
  assert (Hurl : forall j,
             rmatch (Plus (Except ")")) ((url ++ ")") ++ rest)%string j
               (fun s' n' => rmatch (Chr (Only ")")) s' n' (fun _ n0 => Some n0))
             = Some (j + String.length url + 1)%nat).
  { intros j. rewrite rmatch_Plus, <- append_assoc. cbn [append].
    apply plus_match_upto; [exact Hne | exact Hf |].
    rewrite Chr_fwd. f_equal. lia. }
  destruct secure; cbn [append]; do 4 chr_fwd; rewrite rmatch_Seq, rmatch_Opt.
  - do 4 chr_fwd. rewrite Hurl. f_equal. lengths.
  - rewrite Chr_mismatch by reflexivity. cbv beta.
    do 3 chr_fwd. rewrite Hurl. f_equal. lengths.
Qed.

(** Every match of the pattern is a link. *)
Lemma match_all_sound (m : string) :
  forall (s : string) (skip : nat), In m (match_all LINK s skip) -> is_link m.
Proof.
  induction s as [|a s IH]; intros skip H; [contradiction|].
  cbn [match_all] in H. destruct skip as [|skip]; [|exact (IH _ H)].
  destruct (match_here LINK (String a s)) as [n|] eqn:Hn; [|exact (IH _ H)].
  destruct H as [<-|H]; [|exact (IH _ H)].
  apply match_here_link_inv in Hn. destruct Hn as (l & rest & -> & Hl & ->).
  now rewrite substring_prefix.
Qed.

Lemma match_all_past_end (r : Regex) :
  forall (s : string) (skip : nat),
    (String.length s <= skip)%nat -> match_all r s skip = [].
Proof.
  induction s as [|a s IH]; intros skip H; [reflexivity|].
  cbn [String.length] in H. destruct skip as [|skip]; [lia|].
  cbn [match_all]. apply IH. lia.
Qed.

(** The one match in a link is the link itself. *)
Lemma match_all_of_link (m : string) : is_link m -> match_all LINK m 0 = [m].
Proof.
  intros Hm. pose proof (match_here_link m "" Hm) as Hhere.
  rewrite append_empty_r in Hhere.
  destruct m as [|a m]; [inversion Hm|].
  cbn [match_all]. rewrite Hhere.
  pose proof (substring_prefix (String a m) "") as Hsub.
  rewrite append_empty_r in Hsub. rewrite Hsub.
  cbn [String.length pred]. now rewrite match_all_past_end.
Qed.

Lemma all_links_sound (items : list ContentItem) (m : string) :
  In m (all_links items) -> is_link m.
Proof.
  unfold all_links. rewrite in_flat_map. intros (t & _ & Hm).
  exact (match_all_sound m t 0 Hm).
Qed.

Lemma all_links_as_text (l : list string) :
  Forall is_link l -> all_links (map as_text l) = l.
Proof.
  induction 1 as [|m l Hm _ IH]; [reflexivity|].
  unfold all_links in *. cbn [map text_segments flat_map as_text itemText itemType].
  cbn [String.eqb Ascii.eqb Bool.eqb app].
  fold (text_segments (map as_text l)).
  cbn [flat_map app]. now rewrite match_all_of_link, IH.
Qed.

(** C7. The sources of a search result are the links of the response
    without repetition: whatever [searchDocuments] returns, no string
    occurs twice among its sources and every source is a markdown link
    [[label](url)] with a url of scheme http or https; a string is among
    the sources exactly when the pattern matched it in some text segment,
    so that two matches are one source exactly when they are the same
    string.  Extraction is idempotent: removing the
    repetitions twice is removing them once, and extracting from the
    sources of a result, given as text segments, returns these sources
    unchanged.  A text that holds [[a](http://x)] twice and
    [[b](http://y)] once, with text free of opening brackets around them,
    gives exactly the two sources [[a](http://x)] and [[b](http://y)]. *)
Theorem sources_are_the_distinct_links :
  (forall (env : Env) (query : string) (st : State) (r : SearchResult),
     fst (searchDocuments env query st) = Normal r ->
     NoDup (sources r) /\ forall m, In m (sources r) -> is_link m)
  /\
  (forall result : CallToolResult, NoDup (sources (extract result)))
  /\
  (forall (items : list ContentItem) (m : string),
     In m (sources (extract (mkCallToolResult (Some items)))) <-> In m (all_links items))
  /\
  (forall (items : list ContentItem) (m : string),
     In m (sources (extract (mkCallToolResult (Some items)))) -> is_link m)
  /\
  (forall l : list string, Set_of (Set_of l) = Set_of l)
  /\
  (forall result : CallToolResult,
     sources (extract (mkCallToolResult
                         (Some (map as_text (sources (extract result))))))
     = sources (extract result))
  /\
  (forall p0 p1 p2 p3 : string,
     bracket_free p0 = true -> bracket_free p1 = true ->
     bracket_free p2 = true -> bracket_free p3 = true ->
     let text := (p0 ++ "[a](http://x)" ++ p1 ++ "[a](http://x)" ++ p2
                     ++ "[b](http://y)" ++ p3)%string in
     sources (extract (mkCallToolResult (Some [as_text text])))
     = ["[a](http://x)"; "[b](http://y)"]).
Proof.
  assert (Hnodup : forall result : CallToolResult, NoDup (sources (extract result))).
  { intros [[items|]]; [rewrite extract_eq|]; cbn [sources]; [apply Set_of_NoDup|].
    unfold extract. cbn. constructor. }
  assert (Hlink : forall (items : list ContentItem) (m : string),
             In m (sources (extract (mkCallToolResult (Some items)))) -> is_link m).
  { intros items m. rewrite extract_eq. cbn [sources]. rewrite Set_of_In.
    apply all_links_sound. }
  split.
  { intros env query st r. rewrite searchDocuments_eq.
    destruct (getClient env st) as [[c|e|] st1]; try discriminate.
    cbv zeta. destruct (mcp_listTools env (trace st1)) as [tools|e]; [|discriminate].
    destruct (find is_search_tool tools) as [t|].
    - destruct (mcp_callTool env _ _ _) as [result|e]; [|discriminate].
      intros [= <-]. split; [apply Hnodup|].
      destruct result as [[items|]]; [apply Hlink|]. intros m [].
    - intros [= <-]. split; [constructor|]. intros m []. }
  split; [exact Hnodup|]. split.
  { intros items m. rewrite extract_eq. cbn [sources]. apply Set_of_In. }
  split; [exact Hlink|].
  split; [exact Set_of_idempotent|]. split.
  { intros result. rewrite extract_eq. cbn [sources].
    rewrite all_links_as_text.
    - apply (fold_Set_add_distinct (sources (extract result)) []), Hnodup.
    - apply Forall_forall. intros m Hm. destruct result as [[items|]].
      + exact (Hlink items m Hm).
      + contradiction. }
  intros p0 p1 p2 p3 H0 H1 H2 H3 text.
  rewrite extract_eq. cbn [sources]. unfold all_links.
  cbn [text_segments flat_map as_text itemText itemType].
  cbn [String.eqb Ascii.eqb Bool.eqb app flat_map]. rewrite app_nil_r.
  unfold text.
  rewrite (match_all_skip _ _ H0), match_all_link_a.
  rewrite (match_all_skip _ _ H1), match_all_link_a.
  rewrite (match_all_skip _ _ H2), match_all_link_b.
  rewrite (match_all_bracket_free _ H3).
  reflexivity.
Qed.

Lemma sources_are_the_distinct_links_witness :
  let text := "See [a](http://x), again [a](http://x) and [b](http://y)." in
  bracket_free "See " = true /\ bracket_free ", again " = true
  /\ bracket_free " and " = true /\ bracket_free "." = true
  /\ sources (extract (mkCallToolResult (Some [as_text text])))
     = ["[a](http://x)"; "[b](http://y)"]
  /\ List.length
       (sources (extract (mkCallToolResult (Some [as_text text]))))
     = 2%nat.
Proof.
  intros text.
  split; [reflexivity|]. split; [reflexivity|]. split; [reflexivity|].
  split; [reflexivity|].
  destruct sources_are_the_distinct_links as (_ & _ & _ & _ & _ & _ & Hexample).
  pose proof (Hexample "See " ", again " " and " "." eq_refl eq_refl eq_refl eq_refl) as H.
  cbv zeta in H. cbn [append] in H. split; [exact H|].
  unfold text. now rewrite H.
Defined.

(* ===================================================================== *)
(** * Further properties of skill.ts                                       *)
(* ===================================================================== *)

(** X1. A call that finds nothing fresh and whose fetch succeeds (a 2xx
    status and a readable body) returns the fetched text and replaces
    both the cached value and its timestamp: the value becomes the text,
    the timestamp the clock reading taken at the start of the call.  The
    client handle and the model handle are left alone. *)
Theorem successful_fetch_refreshes_cache
    (env : Env) (st : State) (code : Z) (text : string) :
  let now := clock env (trace st) in
  skill.fresh st now = false ->
  http_get env (trace st ++ [DateNow now]) (skill.SKILL_MD_URL env)
    = Ok (mkHttpResponse code (Ok text)) ->
  200 <= code <= 299 ->
  skill.getSkillContext env st =
    (Normal text,
     mkState (Some text) now (client st) (genAI st)
       (trace st ++ [DateNow now;
                     Fetch (skill.SKILL_MD_URL env) (Ok (mkHttpResponse code (Ok text)))])).
Proof.
  intros now Hstale Hget Hcode.
  rewrite getSkillContext_eq. cbv zeta. fold now. rewrite Hstale.
  change (trace (emit (DateNow now) st)) with (trace st ++ [DateNow now]).
  rewrite Hget.
  assert (Hok : ok (mkHttpResponse code (Ok text)) = true).
  { unfold ok. cbn [status]. apply andb_true_intro. split; apply Z.leb_le; lia. }
  unfold fetch_failed. rewrite Hok. cbn [body].
  unfold set_cachedAt, set_cachedContent, emit. cbn.
  now rewrite <- app_assoc.
Qed.

(** A fresh process fetches the document and caches it with the time of
    the call. *)
Lemma successful_fetch_refreshes_cache_witness :
  skill.fresh initial_state (clock (skill_served "# scope") (trace initial_state)) = false
  /\ 200 <= 200 <= 299
  /\ skill.getSkillContext (skill_served "# scope") initial_state
     = (Normal "# scope",
        mkState (Some "# scope") 0 None None
          [DateNow 0;
           Fetch "https://iab-docs.apti.jp/skill.md"
                 (Ok (mkHttpResponse 200 (Ok "# scope")))]).
Proof.
  split; [reflexivity|]. split; [lia|].
  apply (successful_fetch_refreshes_cache (skill_served "# scope") initial_state
           200 "# scope"); [reflexivity | reflexivity | lia].
Defined.

(** A call fetches once when nothing is fresh, and not at all
    otherwise. *)
Lemma getSkillContext_fetch_count (env : Env) (st : State) :
  count is_fetch (trace (snd (skill.getSkillContext env st)))
  = (count is_fetch (trace st)
     + if skill.fresh st (clock env (trace st)) then 0 else 1)%nat.
Proof.
  rewrite getSkillContext_eq. cbv zeta.
  destruct (skill.fresh st _).
  - cbn [snd trace emit]. rewrite count_app. cbn. lia.
  - destruct (fetch_failed _).
    + cbn [snd trace emit]. rewrite !count_app. cbn. lia.
    + destruct (http_get _ _ _) as [[s [t|e]]|e];
        cbn [snd trace emit set_cachedAt set_cachedContent];
        rewrite !count_app; cbn; lia.
Qed.

(** X2. The freshness window is half open: a cached value whose age has
    reached exactly 3 600 000 ms, or more, is fetched again, and so is
    an absent one; and no call fetches more than once. *)
Theorem stale_at_one_hour (env : Env) (st : State) :
  let now := clock env (trace st) in
  let st' := snd (skill.getSkillContext env st) in
  (count is_fetch (trace st') <= S (count is_fetch (trace st)))%nat
  /\ (cachedContent st = None \/ 3600000 <= now - cachedAt st ->
      count is_fetch (trace st') = S (count is_fetch (trace st))).
Proof.
  intros now st'. subst st'. rewrite getSkillContext_fetch_count. fold now.
  split; [destruct (skill.fresh st now); lia|].
  intros Hstale.
  assert (Hfresh : skill.fresh st now = false).
  { unfold skill.fresh. destruct (cachedContent st); [|reflexivity].
    destruct Hstale as [H|H]; [discriminate|].
    apply Z.ltb_ge. unfold skill.CACHE_TTL_MS. lia. }
  rewrite Hfresh. lia.
Qed.

(** Cached at -3 600 000 and asked at 0: one fetch.  (One millisecond
    earlier there is none, by [fresh_cache_is_served_without_fetch].) *)
Lemma stale_at_one_hour_witness :
  (cachedContent (cached_at (-3600000)) = None
   \/ 3600000 <= clock offline (trace (cached_at (-3600000)))
                 - cachedAt (cached_at (-3600000)))
  /\ count is_fetch (trace (snd (skill.getSkillContext offline (cached_at (-3600000)))))
     = S (count is_fetch (trace (cached_at (-3600000)))).
Proof.
  assert (H : cachedContent (cached_at (-3600000)) = None
              \/ 3600000 <= clock offline (trace (cached_at (-3600000)))
                            - cachedAt (cached_at (-3600000))).
  { right. cbn. lia. }
  split; [exact H|].
  exact (proj2 (stale_at_one_hour offline (cached_at (-3600000))) H).
Defined.

(** What one call of [getSkillContext] does to the state. *)
Lemma getSkillContext_frame (env : Env) (st : State) :
  exists s st',
    skill.getSkillContext env st = (Normal s, st')
    /\ client st' = client st
    /\ genAI st' = genAI st
    /\ (trace st' = trace st ++ [DateNow (clock env (trace st))]
        \/ exists out,
             trace st' = trace st ++ [DateNow (clock env (trace st));
                                      Fetch (skill.SKILL_MD_URL env) out]).
Proof.
  rewrite getSkillContext_eq. cbv zeta.
  destruct (skill.fresh st _).
  { eexists _, _. split; [reflexivity|]. repeat split. now left. }
  assert (Htrace : forall out,
             trace (emit (Fetch (skill.SKILL_MD_URL env) out)
                      (emit (DateNow (clock env (trace st))) st))
             = trace st ++ [DateNow (clock env (trace st));
                            Fetch (skill.SKILL_MD_URL env) out]).
  { intros out. cbn [trace emit]. now rewrite <- app_assoc. }
  destruct (fetch_failed _).
  { eexists _, _. split; [reflexivity|]. repeat split. right. eexists. apply Htrace. }
  destruct (http_get _ _ _) as [[s [t|e]]|e];
    (eexists _, _; split; [reflexivity|]; repeat split; right; eexists; apply Htrace).
Qed.

(** X3. [getSkillContext] never throws, whatever the clock and the
    endpoint do; it reads the clock once and fetches the configured URL
    at most once, and it leaves the client handle and the model handle
    as they were. *)
Theorem getSkillContext_is_contained (env : Env) (st : State) :
  exists s st',
    skill.getSkillContext env st = (Normal s, st')
    /\ client st' = client st
    /\ genAI st' = genAI st
    /\ (trace st' = trace st ++ [DateNow (clock env (trace st))]
        \/ exists out,
             trace st' = trace st ++ [DateNow (clock env (trace st));
                                      Fetch (skill.SKILL_MD_URL env) out]).
Proof. exact (getSkillContext_frame env st). Qed.

(** ** The cache and the history *)

Lemma last_fetch_app (h evs : History) :
  last_fetch (h ++ evs) = snd (fold_left observe evs (fold_left observe h (0, None))).
Proof. unfold last_fetch. now rewrite fold_left_app. Qed.

Lemma observe_inert (evs : History) (acc : Z * option (Z * string)) :
  Forall not_of_skill evs -> fold_left observe evs acc = acc.
Proof.
  intros H. revert acc. induction H as [|ev evs Hev _ IH]; intros acc; [reflexivity|].
  cbn [fold_left]. rewrite <- (IH acc) at 2. f_equal.
  destruct ev; try reflexivity; contradiction.
Qed.

(** Events that are not of the cache, and a state that keeps the cached
    value and timestamp, keep [cache_reflects]. *)
Lemma cache_reflects_frame (st st' : State) (evs : History) :
  cache_reflects st ->
  cachedContent st' = cachedContent st ->
  cachedAt st' = cachedAt st ->
  trace st' = trace st ++ evs ->
  Forall not_of_skill evs ->
  cache_reflects st'.
Proof.
  unfold cache_reflects. intros H Hc Ht Htrace Hevs.
  rewrite Htrace, last_fetch_app, (observe_inert _ _ Hevs), Hc, Ht. exact H.
Qed.

Lemma fetch_failed_fetched_text (out : Outcome HttpResponse) :
  fetch_failed out = true <-> fetched_text out = None.
Proof.
  destruct out as [[s [t|e]]|e]; unfold fetch_failed, fetched_text; cbn [body];
    try destruct (ok (mkHttpResponse s _)); split; congruence.
Qed.

Lemma getSkillContext_reflects (env : Env) (st : State) :
  cache_reflects st -> cache_reflects (snd (skill.getSkillContext env st)).
Proof.
  unfold cache_reflects. intros H. rewrite getSkillContext_eq. cbv zeta.
  set (now := clock env (trace st)).
  destruct (skill.fresh st now).
  { cbn [snd trace emit cachedContent cachedAt].
    rewrite last_fetch_app. cbn [fold_left observe snd]. exact H. }
  set (out := http_get env _ _).
  destruct (fetch_failed out) eqn:Hfail.
  { cbn [snd trace emit cachedContent cachedAt].
    rewrite <- app_assoc, last_fetch_app. cbn [app fold_left observe snd fst].
    apply fetch_failed_fetched_text in Hfail. rewrite Hfail. exact H. }
  assert (Htext : exists text, fetched_text out = Some text
                               /\ exists s, out = Ok (mkHttpResponse s (Ok text))).
  { destruct out as [[s [t|e]]|e]; unfold fetch_failed, fetched_text in *;
      cbn [body] in *; try destruct (ok (mkHttpResponse s _)); try discriminate.
    exists t. split; [reflexivity|]. now exists s. }
  destruct Htext as (text & Htext & s & Hout). rewrite Hout.
  cbn [snd trace emit set_cachedAt set_cachedContent cachedContent cachedAt].
  rewrite <- app_assoc, last_fetch_app. cbn [app fold_left observe snd fst].
  rewrite <- Hout, Htext. cbn [snd]. split; reflexivity.
Qed.

(* ===================================================================== *)
(** * Further properties of gemini.ts                                      *)
(* ===================================================================== *)

(** The loop changes nothing but the history, to which it adds only
    invocations of tools and tool-result messages of its chat. *)
Lemma tool_loop_frame (env : Env) (chat : gemini.ChatSession) (fuel : nat) :
  forall (it : nat) (r : Response) (st : State),
    exists evs,
      snd (gemini.tool_loop env fuel chat it r st) = add_events evs st
      /\ Forall (loop_event chat) evs.
Proof.
  induction fuel as [|fuel IH]; intros it r st.
  { exists []. cbn [gemini.tool_loop snd]. now rewrite add_events_nil. }
  rewrite tool_loop_S.
  destruct ((it <? gemini.MAX_ITERATIONS)%nat && requests_tools r)%bool.
  2:{ exists []. cbn [snd]. now rewrite add_events_nil. }
  cbv zeta.
  set (invs := invocations env (trace st) _).
  set (st1 := add_events (map event_of invs) st).
  set (msg := Parts (map part_of invs)).
  set (out := llm env (trace st1) (gemini.chatModel chat) msg).
  assert (Hinvs : Forall (loop_event chat) (map event_of invs)).
  { apply Forall_forall. intros ev Hev. apply in_map_iff in Hev.
    destruct Hev as ([c o] & <- & _). exact I. }
  assert (Hsend : loop_event chat (SendMessage (gemini.chatModel chat) msg out))
    by reflexivity.
  destruct out as [r'|e] eqn:Hout.
  - destruct (IH (S it) r' (emit (SendMessage (gemini.chatModel chat) msg (Ok r')) st1))
      as (evs & Heq & Hevs).
    exists (map event_of invs ++ SendMessage (gemini.chatModel chat) msg (Ok r') :: evs).
    split.
    + rewrite Heq. unfold st1. rewrite emit_add_events, <- !add_events_app.
      f_equal.
    + apply Forall_app. split; [exact Hinvs|]. constructor; [exact Hsend | exact Hevs].
  - exists (map event_of invs ++ [SendMessage (gemini.chatModel chat) msg (Throw e)]).
    split.
    + cbn [snd]. unfold st1. now rewrite emit_add_events, <- add_events_app.
    + apply Forall_app. split; [exact Hinvs|]. constructor; [exact Hsend | constructor].
Qed.

(** The course of [generateAnswer] once the key is set and the catalog
    obtained: the catalog request, [getSkillContext], the question sent
    to a model built from the catalog and the scope document, and the
    events of the loop of that chat.  The cache is as [getSkillContext]
    left it. *)
Lemma generateAnswer_course (env : Env) (q : string) (st : State)
    (decls : list FunctionDeclaration) :
  gemini.GEMINI_API_KEY env <> "" ->
  getGeminiTools_ env (trace st) = Ok decls ->
  let st2 := snd (skill.getSkillContext env (emit (GetGeminiTools (Ok decls)) st)) in
  let st' := snd (gemini.generateAnswer env q st) in
  exists skillMd evs,
    fst (skill.getSkillContext env (emit (GetGeminiTools (Ok decls)) st)) = Normal skillMd
    /\ let m := mkModel (gemini.MODEL_NAME env) (gemini.buildSystemPrompt skillMd)
                        [mkTool decls] in
       Forall (loop_event (gemini.startChat m)) evs
       /\ trace st' = trace st2
                      ++ SendMessage m (Question q) (llm env (trace st2) m (Question q))
                         :: evs
       /\ cachedContent st' = cachedContent st2
       /\ cachedAt st' = cachedAt st2
       /\ client st' = client st2
       /\ genAI st' = match genAI st2 with
                      | None => Some (mkGenAI (gemini.GEMINI_API_KEY env))
                      | Some g => Some g
                      end.
Proof.
  intros Hkey Hdecls st2 st'. subst st2 st'.
  rewrite generateAnswer_eq.
  destruct (gemini.truthy (gemini.GEMINI_API_KEY env)) eqn:Htruthy;
    [|apply truthy_false in Htruthy; contradiction].
  cbn [negb]. cbv zeta. rewrite Hdecls.
  set (st1 := emit _ st).
  destruct (getSkillContext_returns env st1) as (skillMd & Hskill).
  destruct (skill.getSkillContext env st1) as [c2 st2]. cbn [fst snd] in *. subst c2.
  exists skillMd. cbv zeta.
  set (m := mkModel _ _ _).
  set (st3 := match genAI st2 with None => _ | Some _ => _ end).
  assert (H3 : trace st3 = trace st2 /\ cachedContent st3 = cachedContent st2
               /\ cachedAt st3 = cachedAt st2 /\ client st3 = client st2
               /\ genAI st3 = match genAI st2 with
                              | None => Some (mkGenAI (gemini.GEMINI_API_KEY env))
                              | Some g => Some g
                              end).
  { subst st3. destruct (genAI st2) eqn:Hg2; repeat split; try reflexivity.
    exact Hg2. }
  destruct H3 as (Ht3 & Hc3 & Ha3 & Hcl3 & Hg3).
  rewrite Ht3.
  set (o4 := llm env (trace st2) m (Question q)).
  set (st4 := emit (SendMessage m (Question q) o4) st3).
  destruct o4 as [r0|e] eqn:Ho4.
  2:{ exists []. cbn [snd]. split; [reflexivity|]. split; [constructor|].
      subst st4. cbn [trace emit cachedContent cachedAt client genAI].
      rewrite Ht3. repeat split; first [reflexivity | assumption]. }
  destruct (tool_loop_frame env (gemini.startChat m) (S gemini.MAX_ITERATIONS) 0 r0 st4)
    as (evs & Heq & Hevs).
  exists evs. split; [reflexivity|]. split; [exact Hevs|].
  assert (Hst5 : forall c, snd (let (c0, st5) := gemini.tool_loop env (S gemini.MAX_ITERATIONS)
                                     (gemini.startChat m) 0 r0 st4 in
                                match c0 with
                                | Normal (_, r) => (Normal (gemini.mkResult (text r) true), st5)
                                | Abrupt _ => (Normal c, st5)
                                | OutOfFuel => (OutOfFuel, st5)
                                end) = add_events evs st4).
  { intros c. rewrite <- Heq.
    destruct (gemini.tool_loop env _ _ 0 r0 st4) as [[[it r]|e|] st5]; reflexivity. }
  rewrite Hst5. subst st4. cbn [trace add_events emit cachedContent cachedAt client genAI].
  rewrite Ht3, <- app_assoc. repeat split; first [reflexivity | assumption].
Qed.

(** X4. The cache always holds the body of the most recent successful
    fetch recorded in the history, stamped with the clock reading that
    preceded it, and holds nothing, with the timestamp 0, while no fetch
    has succeeded.  This is so in a fresh process, and both
    [getSkillContext] and [generateAnswer] keep it so, whatever the
    endpoints do. *)
Theorem cache_holds_last_successful_fetch :
  cache_reflects initial_state
  /\ (forall (env : Env) (st : State),
        cache_reflects st -> cache_reflects (snd (skill.getSkillContext env st)))
  /\ (forall (env : Env) (question : string) (st : State),
        cache_reflects st ->
        cache_reflects (snd (gemini.generateAnswer env question st))).
Proof.
  split; [split; reflexivity|]. split; [exact getSkillContext_reflects|].
  intros env q st H.
  destruct (gemini.truthy (gemini.GEMINI_API_KEY env)) eqn:Hkey.
  2:{ rewrite generateAnswer_eq, Hkey. exact H. }
  assert (Hset : gemini.GEMINI_API_KEY env <> "").
  { intros E. rewrite E in Hkey. discriminate. }
  destruct (getGeminiTools_ env (trace st)) as [decls|e] eqn:Hdecls.
  2:{ rewrite generateAnswer_eq, Hkey. cbn [negb]. cbv zeta. rewrite Hdecls. cbn [snd].
      apply (cache_reflects_frame st _ [GetGeminiTools (Throw e)] H); try reflexivity.
      repeat constructor. }
  destruct (generateAnswer_course env q st decls Hset Hdecls)
    as (skillMd & evs & _ & Hevs & Htrace & Hc & Ha & _).
  set (st1 := emit (GetGeminiTools (Ok decls)) st) in *.
  assert (H1 : cache_reflects st1).
  { apply (cache_reflects_frame st _ [GetGeminiTools (Ok decls)] H); try reflexivity.
    repeat constructor. }
  apply getSkillContext_reflects with (env := env) in H1.
  eapply cache_reflects_frame; [exact H1 | exact Hc | exact Ha | exact Htrace |].
  constructor; [exact I|].
  eapply Forall_impl; [|exact Hevs].
  intros ev. destruct ev; try contradiction; intros _; exact I.
Qed.

(** After a question answered by [one_round], the cache holds the
    document fetched during that question, with the time of the fetch. *)
Lemma cache_holds_last_successful_fetch_witness :
  cache_reflects initial_state
  /\ cache_reflects (snd (gemini.generateAnswer one_round "What is VAST?" initial_state))
  /\ last_fetch (trace (snd (gemini.generateAnswer one_round "What is VAST?"
                               initial_state)))
     = Some (1, "# scope").
Proof.
  destruct cache_holds_last_successful_fetch as (H0 & _ & Hanswer).
  split; [exact H0|]. split; [apply Hanswer, H0 | reflexivity].
Defined.

(** X5. When the key is set, the catalog obtained and the first response
    of the model requests no tool ([functionCalls()] undefined or an
    empty array), [generateAnswer] returns the text of that response with
    [success = true]; the question is the only message sent and no tool
    is invoked. *)
Theorem direct_answer
    (env : Env) (question : string) (st st2 : State)
    (decls : list FunctionDeclaration) (skillMd : string) (r0 : Response) :
  gemini.GEMINI_API_KEY env <> "" ->
  getGeminiTools_ env (trace st) = Ok decls ->
  skill.getSkillContext env (emit (GetGeminiTools (Ok decls)) st) = (Normal skillMd, st2) ->
  let m := mkModel (gemini.MODEL_NAME env) (gemini.buildSystemPrompt skillMd)
                   [mkTool decls] in
  llm env (trace st2) m (Question question) = Ok r0 ->
  (functionCalls r0 = None \/ functionCalls r0 = Some []) ->
  exists st',
    gemini.generateAnswer env question st
      = (Normal (gemini.mkResult (text r0) true), st')
    /\ trace st' = trace st2 ++ [SendMessage m (Question question) (Ok r0)]
    /\ count is_invocation (trace st') = count is_invocation (trace st).
Proof.
  intros Hkey Hdecls Hskill m Hllm Hnone.
  rewrite generateAnswer_eq.
  destruct (gemini.truthy (gemini.GEMINI_API_KEY env)) eqn:Htruthy;
    [|apply truthy_false in Htruthy; contradiction].
  cbn [negb]. cbv zeta. rewrite Hdecls, Hskill. fold m.
  rewrite trace_genAI, Hllm, tool_loop_S.
  assert (Hreq : requests_tools r0 = false).
  { unfold requests_tools. destruct Hnone as [-> | ->]; reflexivity. }
  rewrite Hreq, andb_false_r.
  eexists. split; [reflexivity|].
  cbn [trace emit]. rewrite trace_genAI. split; [reflexivity|].
  pose proof (getSkillContext_count is_invocation env
                (emit (GetGeminiTools (Ok decls)) st)
                ltac:(reflexivity) ltac:(reflexivity)) as Hcount.
  rewrite Hskill in Hcount. cbn [snd trace emit] in Hcount.
  rewrite count_app, Hcount, count_app. cbn. lia.
Qed.

Lemma direct_answer_witness :
  let st2 := snd (skill.getSkillContext decisive
                    (emit (GetGeminiTools (Ok [search_declaration])) initial_state)) in
  let r0 := mkResponse None "VAST is a template." in
  gemini.GEMINI_API_KEY decisive <> ""
  /\ getGeminiTools_ decisive (trace initial_state) = Ok [search_declaration]
  /\ exists st',
       gemini.generateAnswer decisive "What is VAST?" initial_state
         = (Normal (gemini.mkResult "VAST is a template." true), st')
       /\ count is_invocation (trace st') = 0%nat.
Proof.
  intros st2 r0.
  assert (Hkey : gemini.GEMINI_API_KEY decisive <> "") by discriminate.
  split; [exact Hkey|]. split; [reflexivity|].
  destruct (direct_answer decisive "What is VAST?" initial_state st2
              [search_declaration] "# scope" r0 Hkey eq_refl eq_refl eq_refl
              (or_introl eq_refl)) as (st' & Heq & _ & Hcount).
  exists st'. split; [exact Heq | exact Hcount].
Defined.

(** X6. When the first response of the model requests tools and its
    response to their results requests none, [generateAnswer] returns
    the text of that second response with [success = true], whether the
    invocations succeeded or failed: the history holds the question, one
    invocation per request in the order of the requests, and one message
    with their results. *)
Theorem one_round_answer
    (env : Env) (question : string) (st st2 : State)
    (decls : list FunctionDeclaration) (skillMd : string)
    (r0 r1 : Response) (calls : list FunctionCall) :
  gemini.GEMINI_API_KEY env <> "" ->
  getGeminiTools_ env (trace st) = Ok decls ->
  skill.getSkillContext env (emit (GetGeminiTools (Ok decls)) st) = (Normal skillMd, st2) ->
  let m := mkModel (gemini.MODEL_NAME env) (gemini.buildSystemPrompt skillMd)
                   [mkTool decls] in
  let asked := trace st2 ++ [SendMessage m (Question question) (Ok r0)] in
  llm env (trace st2) m (Question question) = Ok r0 ->
  functionCalls r0 = Some calls ->
  calls <> [] ->
  let invs := invocations env asked calls in
  llm env (asked ++ map event_of invs) m (Parts (map part_of invs)) = Ok r1 ->
  requests_tools r1 = false ->
  exists st',
    gemini.generateAnswer env question st
      = (Normal (gemini.mkResult (text r1) true), st')
    /\ trace st' = asked ++ map event_of invs
                     ++ [SendMessage m (Parts (map part_of invs)) (Ok r1)]
    /\ map fst invs = calls.
Proof.
  intros Hkey Hdecls Hskill m asked Hllm Hcalls Hne invs Hllm1 Hreq1.
  rewrite generateAnswer_eq.
  destruct (gemini.truthy (gemini.GEMINI_API_KEY env)) eqn:Htruthy;
    [|apply truthy_false in Htruthy; contradiction].
  cbn [negb]. cbv zeta. rewrite Hdecls, Hskill. fold m.
  rewrite trace_genAI, Hllm, tool_loop_S.
  assert (Hreq0 : requests_tools r0 = true).
  { unfold requests_tools. rewrite Hcalls. destruct calls; [contradiction|reflexivity]. }
  rewrite Hreq0, Hcalls. unfold gemini.MAX_ITERATIONS. cbn [Nat.ltb Nat.leb andb]. cbv zeta.
  cbn [trace emit add_events gemini.chatModel gemini.startChat].
  rewrite trace_genAI. fold asked. fold invs.
  rewrite Hllm1, tool_loop_S, Hreq1, andb_false_r.
  eexists. split; [reflexivity|].
  cbn [trace emit add_events]. rewrite trace_genAI. fold asked.
  split; [now rewrite <- app_assoc | apply invocations_calls].
Qed.

(** The question of [one_round]: a search that works and a lookup that
    fails, then the answer. *)
Lemma one_round_answer_witness :
  let st2 := snd (skill.getSkillContext one_round
                    (emit (GetGeminiTools (Ok [search_declaration])) initial_state)) in
  gemini.GEMINI_API_KEY one_round <> ""
  /\ getGeminiTools_ one_round (trace initial_state) = Ok [search_declaration]
  /\ [search_vast; lookup_spec] <> []
  /\ exists st',
       gemini.generateAnswer one_round "What is VAST?" initial_state
         = (Normal (gemini.mkResult "VAST is a template." true), st')
       /\ count is_invocation (trace st') = 2%nat.
Proof.
  intros st2.
  assert (Hkey : gemini.GEMINI_API_KEY one_round <> "") by discriminate.
  assert (Hne : [search_vast; lookup_spec] <> []) by discriminate.
  split; [exact Hkey|]. split; [reflexivity|]. split; [exact Hne|].
  destruct (one_round_answer one_round "What is VAST?" initial_state st2
              [search_declaration] "# scope"
              (mkResponse (Some [search_vast; lookup_spec]) "")
              (mkResponse (Some []) "VAST is a template.")
              [search_vast; lookup_spec]
              Hkey eq_refl eq_refl eq_refl eq_refl Hne eq_refl eq_refl)
    as (st' & Heq & Htrace & _).
  exists st'. split; [exact Heq|]. rewrite Htrace. reflexivity.
Defined.

Lemma count_loop_events (p : Event -> bool) (chat : gemini.ChatSession) (evs : History) :
  (forall n a o, p (CallMcpTool n a o) = false) ->
  (forall m ps o, p (SendMessage m (Parts ps) o) = false) ->
  Forall (loop_event chat) evs ->
  count p evs = 0%nat.
Proof.
  intros Hcall Hsend H. unfold count.
  induction H as [|ev evs Hev _ IH]; [reflexivity|].
  cbn [filter].
  destruct ev as [| | | | | | | n a o | m [qq|ps] o]; try contradiction.
  - now rewrite Hcall.
  - now rewrite Hsend.
Qed.

(** X7. One question is one conversation with one model: when the key is
    set and the catalog obtained, every message of the run goes to the
    same model, configured with [MODEL_NAME], the declarations of the
    catalog and the system prompt built from what [getSkillContext]
    returned; the question is the first message sent and is sent once,
    every later message being a list of tool results. *)
Theorem one_conversation_per_question
    (env : Env) (question : string) (st : State) (decls : list FunctionDeclaration) :
  gemini.GEMINI_API_KEY env <> "" ->
  getGeminiTools_ env (trace st) = Ok decls ->
  exists skillMd pre out post,
    fst (skill.getSkillContext env (emit (GetGeminiTools (Ok decls)) st)) = Normal skillMd
    /\ let m := mkModel (gemini.MODEL_NAME env) (gemini.buildSystemPrompt skillMd)
                        [mkTool decls] in
       trace (snd (gemini.generateAnswer env question st))
         = trace st ++ pre ++ SendMessage m (Question question) out :: post
       /\ count is_send pre = 0%nat
       /\ count is_question post = 0%nat
       /\ forall m' msg o, In (SendMessage m' msg o) post -> m' = m.
Proof.
  intros Hkey Hdecls.
  destruct (generateAnswer_course env question st decls Hkey Hdecls)
    as (skillMd & evs & Hskill & Hevs & Htrace & _).
  set (st1 := emit (GetGeminiTools (Ok decls)) st) in *.
  destruct (getSkillContext_frame env st1) as (s & st2 & Heq & _ & _ & Hst2).
  rewrite Heq in *. cbn [fst snd] in *.
  set (m := mkModel _ _ _) in *.
  assert (Hpre : exists pre, trace st2 = trace st ++ pre /\ count is_send pre = 0%nat).
  { destruct Hst2 as [H|(o & H)]; rewrite H; subst st1; cbn [trace emit];
      rewrite <- app_assoc; eexists; (split; [reflexivity|reflexivity]). }
  destruct Hpre as (pre & Hpre & Hnone).
  exists skillMd, pre, (llm env (trace st2) m (Question question)), evs.
  split; [exact Hskill|]. cbv zeta. fold m.
  split; [now rewrite Htrace, Hpre, <- app_assoc|].
  split; [exact Hnone|]. split.
  - apply (count_loop_events is_question (gemini.startChat m)); auto.
  - intros m' msg o Hin.
    apply (proj1 (Forall_forall _ _) Hevs) in Hin.
    destruct msg; [contradiction | exact Hin].
Qed.

Lemma one_conversation_per_question_witness :
  gemini.GEMINI_API_KEY one_round <> ""
  /\ getGeminiTools_ one_round (trace initial_state) = Ok [search_declaration]
  /\ exists pre out post,
       let m := mkModel "gemini-1.5-flash" (gemini.buildSystemPrompt "# scope")
                        [mkTool [search_declaration]] in
       trace (snd (gemini.generateAnswer one_round "What is VAST?" initial_state))
         = pre ++ SendMessage m (Question "What is VAST?") out :: post
       /\ count is_send pre = 0%nat
       /\ count is_question post = 0%nat.
Proof.
  assert (Hkey : gemini.GEMINI_API_KEY one_round <> "") by discriminate.
  split; [exact Hkey|]. split; [reflexivity|].
  destruct (one_conversation_per_question one_round "What is VAST?" initial_state
              [search_declaration] Hkey eq_refl)
    as (skillMd & pre & out & post & Hskill & Htrace & Hpre & Hpost & _).
  vm_compute in Hskill. injection Hskill as <-.
  exists pre, out, post. cbv zeta. split; [exact Htrace|]. split; assumption.
Defined.

(** X8. A question fetches the scope document at most once, whatever
    happens; and when the key is set, the catalog obtained and the cached
    document is younger than one hour at that point, the question is
    answered without any fetch, the model being instructed with the
    prompt built from the cached document. *)
Theorem scope_document_per_question :
  (forall (env : Env) (question : string) (st : State),
     (count is_fetch (trace (snd (gemini.generateAnswer env question st)))
      <= S (count is_fetch (trace st)))%nat)
  /\
  (forall (env : Env) (question : string) (st : State)
          (decls : list FunctionDeclaration) (c : string),
     gemini.GEMINI_API_KEY env <> "" ->
     getGeminiTools_ env (trace st) = Ok decls ->
     cachedContent st = Some c ->
     clock env (trace st ++ [GetGeminiTools (Ok decls)]) - cachedAt st
       < skill.CACHE_TTL_MS ->
     count is_fetch (trace (snd (gemini.generateAnswer env question st)))
       = count is_fetch (trace st)
     /\ exists out,
          In (SendMessage
                (mkModel (gemini.MODEL_NAME env) (gemini.buildSystemPrompt c)
                         [mkTool decls])
                (Question question) out)
             (trace (snd (gemini.generateAnswer env question st)))).
Proof.
  assert (Hcourse : forall env question st decls,
             gemini.GEMINI_API_KEY env <> "" ->
             getGeminiTools_ env (trace st) = Ok decls ->
             count is_fetch (trace (snd (gemini.generateAnswer env question st)))
             = count is_fetch
                 (trace (snd (skill.getSkillContext env
                                (emit (GetGeminiTools (Ok decls)) st))))).
  { intros env q st decls Hkey Hdecls.
    destruct (generateAnswer_course env q st decls Hkey Hdecls)
      as (skillMd & evs & _ & Hevs & Htrace & _).
    rewrite Htrace, count_app.
    change (SendMessage ?m ?msg ?o :: evs) with ([SendMessage m msg o] ++ evs).
    rewrite count_app.
    rewrite (count_loop_events is_fetch _ evs ltac:(reflexivity) ltac:(reflexivity) Hevs).
    cbn. lia. }
  split.
  - intros env q st.
    destruct (gemini.truthy (gemini.GEMINI_API_KEY env)) eqn:Hkey.
    2:{ rewrite generateAnswer_eq, Hkey. cbn [negb snd]. lia. }
    assert (Hset : gemini.GEMINI_API_KEY env <> "").
    { intros E. rewrite E in Hkey. discriminate. }
    destruct (getGeminiTools_ env (trace st)) as [decls|e] eqn:Hdecls.
    2:{ rewrite generateAnswer_eq, Hkey. cbn [negb]. cbv zeta. rewrite Hdecls.
        cbn [snd trace emit]. rewrite count_app. cbn. lia. }
    rewrite (Hcourse env q st decls Hset Hdecls), getSkillContext_fetch_count.
    cbn [trace emit]. rewrite count_app. cbn.
    destruct (skill.fresh _ _); lia.
  - intros env q st decls c Hkey Hdecls Hc Hage.
    set (st1 := emit (GetGeminiTools (Ok decls)) st).
    assert (Hhit : skill.getSkillContext env st1
                   = (Normal c, emit (DateNow (clock env (trace st1))) st1)).
    { rewrite getSkillContext_eq. cbv zeta.
      unfold skill.fresh, skill.cached_or_empty.
      change (cachedContent st1) with (cachedContent st).
      change (cachedAt st1) with (cachedAt st).
      change (trace st1) with (trace st ++ [GetGeminiTools (Ok decls)]).
      rewrite Hc. apply Z.ltb_lt in Hage. now rewrite Hage. }
    split.
    + rewrite (Hcourse env q st decls Hkey Hdecls). fold st1. rewrite Hhit.
      subst st1. cbn [snd trace emit]. rewrite !count_app. cbn. lia.
    + destruct (generateAnswer_course env q st decls Hkey Hdecls)
        as (skillMd & evs & Hskill & _ & Htrace & _).
      fold st1 in Hskill, Htrace. rewrite Hhit in Hskill, Htrace.
      cbn [fst snd] in Hskill, Htrace. injection Hskill as <-.
      eexists. rewrite Htrace. apply in_or_app. right. left. reflexivity.
Qed.

(** A question asked one millisecond after the document was cached. *)
Lemma scope_document_per_question_witness :
  gemini.GEMINI_API_KEY one_round <> ""
  /\ getGeminiTools_ one_round (trace (cached_at 0)) = Ok [search_declaration]
  /\ cachedContent (cached_at 0) = Some "# scope"
  /\ clock one_round (trace (cached_at 0) ++ [GetGeminiTools (Ok [search_declaration])])
     - cachedAt (cached_at 0) < skill.CACHE_TTL_MS
  /\ count is_fetch
       (trace (snd (gemini.generateAnswer one_round "What is VAST?" (cached_at 0))))
     = 0%nat.
Proof.
  assert (Hkey : gemini.GEMINI_API_KEY one_round <> "") by discriminate.
  assert (Hage : clock one_round
                   (trace (cached_at 0) ++ [GetGeminiTools (Ok [search_declaration])])
                 - cachedAt (cached_at 0) < skill.CACHE_TTL_MS) by reflexivity.
  split; [exact Hkey|]. split; [reflexivity|]. split; [reflexivity|].
  split; [exact Hage|].
  exact (proj1 (proj2 scope_document_per_question one_round "What is VAST?"
                  (cached_at 0) [search_declaration] "# scope"
                  Hkey eq_refl eq_refl Hage)).
Defined.

(** X9. The handle of the model API is created lazily and once: a call
    of [generateAnswer] never replaces a handle that exists; it creates
    one, from the configured key, only when the key is set, the catalog
    obtained and no handle exists; and without a key, or when the catalog
    cannot be obtained, it leaves the handle as it was. *)
Theorem model_handle_is_created_once (env : Env) (question : string) (st : State) :
  let st' := snd (gemini.generateAnswer env question st) in
  (forall g, genAI st = Some g -> genAI st' = Some g)
  /\ (gemini.GEMINI_API_KEY env = "" -> genAI st' = genAI st)
  /\ (forall e, getGeminiTools_ env (trace st) = Throw e -> genAI st' = genAI st)
  /\ (gemini.GEMINI_API_KEY env <> "" ->
      forall decls, getGeminiTools_ env (trace st) = Ok decls ->
      genAI st = None ->
      genAI st' = Some (mkGenAI (gemini.GEMINI_API_KEY env))).
Proof.
  intros st'. subst st'.
  assert (Hcourse : gemini.GEMINI_API_KEY env <> "" ->
                    forall decls, getGeminiTools_ env (trace st) = Ok decls ->
                    genAI (snd (gemini.generateAnswer env question st))
                    = match genAI st with
                      | None => Some (mkGenAI (gemini.GEMINI_API_KEY env))
                      | Some g => Some g
                      end).
  { intros Hkey decls Hdecls.
    destruct (generateAnswer_course env question st decls Hkey Hdecls)
      as (skillMd & evs & _ & _ & _ & _ & _ & _ & Hg).
    rewrite Hg.
    destruct (getSkillContext_frame env (emit (GetGeminiTools (Ok decls)) st))
      as (s & st2 & Heq & _ & Hg2 & _).
    rewrite Heq. cbn [snd]. now rewrite Hg2. }
  assert (Hnokey : gemini.GEMINI_API_KEY env = "" ->
                   genAI (snd (gemini.generateAnswer env question st)) = genAI st).
  { intros Hkey. rewrite generateAnswer_eq, Hkey. reflexivity. }
  assert (Hdown : forall e, getGeminiTools_ env (trace st) = Throw e ->
                   genAI (snd (gemini.generateAnswer env question st)) = genAI st).
  { intros e He. rewrite generateAnswer_eq. destruct (negb _); [reflexivity|].
    cbv zeta. rewrite He. reflexivity. }
  split; [|split; [exact Hnokey|split; [exact Hdown|]]].
  - intros g Hg.
    destruct (string_dec (gemini.GEMINI_API_KEY env) "") as [Hkey|Hkey].
    { now rewrite Hnokey. }
    destruct (getGeminiTools_ env (trace st)) as [decls|e] eqn:Hdecls.
    + now rewrite (Hcourse Hkey decls eq_refl), Hg.
    + now rewrite (Hdown e eq_refl).
  - intros Hkey decls Hdecls Hnone. now rewrite (Hcourse Hkey decls Hdecls), Hnone.
Qed.

Lemma model_handle_is_created_once_witness :
  gemini.GEMINI_API_KEY one_round <> ""
  /\ getGeminiTools_ one_round (trace initial_state) = Ok [search_declaration]
  /\ genAI initial_state = None
  /\ genAI (snd (gemini.generateAnswer one_round "What is VAST?" initial_state))
     = Some (mkGenAI "key")
  /\ genAI (snd (gemini.generateAnswer offline "What is VAST?" initial_state)) = None.
Proof.
  assert (Hkey : gemini.GEMINI_API_KEY one_round <> "") by discriminate.
  split; [exact Hkey|]. split; [reflexivity|]. split; [reflexivity|].
  destruct (model_handle_is_created_once one_round "What is VAST?" initial_state)
    as (_ & _ & _ & Hcreate).
  destruct (model_handle_is_created_once offline "What is VAST?" initial_state)
    as (_ & Hnokey & _).
  split; [exact (Hcreate Hkey _ eq_refl eq_refl) | exact (Hnokey eq_refl)].
Defined.

(** ** Substrings *)







(* ===================================================================== *)
(** * Further properties of mcp.ts                                         *)
(* ===================================================================== *)

(** X11. The first [getClient] of a process parses [MCP_URL], connects
    to it and lists the tools once, in this order, and caches the
    handle; from then on [getClient] returns the handle without any
    interaction, whatever the endpoint would do. *)
Theorem first_connection_is_cached
    (env : Env) (st : State) (url : string) (tools : list ToolInfo) :
  client st = None ->
  new_URL env (mcp.MCP_URL env) = Ok url ->
  mcp_connect env (trace st) url = Ok tt ->
  mcp_listTools env (trace st ++ [McpConnect url (Ok tt)]) = Ok tools ->
  let st' := mkState (cachedContent st) (cachedAt st) (Some THE_CLIENT) (genAI st)
               (trace st ++ [McpConnect url (Ok tt); McpListTools (Ok tools)]) in
  mcp.getClient env st = (Normal THE_CLIENT, st')
  /\ forall env' : Env, mcp.getClient env' st' = (Normal THE_CLIENT, st').
Proof.
  intros Hnone Hurl Hconn Hlist st'. split.
  - rewrite getClient_eq, Hnone, Hurl. cbv zeta. cbn [trace set_client emit].
    rewrite Hconn, Hlist. unfold st', emit, set_client. cbn.
    now rewrite <- app_assoc.
  - intros env'. now rewrite getClient_eq.
Qed.

Lemma first_connection_is_cached_witness :
  let env := docs_online search_catalog vast_result in
  client initial_state = None
  /\ new_URL env (mcp.MCP_URL env) = Ok "https://iab-docs.apti.jp/mcp"
  /\ mcp_connect env (trace initial_state) "https://iab-docs.apti.jp/mcp" = Ok tt
  /\ mcp.getClient env initial_state
     = (Normal THE_CLIENT,
        mkState None 0 (Some THE_CLIENT) None
          [McpConnect "https://iab-docs.apti.jp/mcp" (Ok tt);
           McpListTools (Ok search_catalog)]).
Proof.
  intros env.
  split; [reflexivity|]. split; [reflexivity|]. split; [reflexivity|].
  exact (proj1 (first_connection_is_cached env initial_state
                  "https://iab-docs.apti.jp/mcp" search_catalog
                  eq_refl eq_refl eq_refl eq_refl)).
Defined.

(** X12. When [MCP_URL] is not a URL, [getClient] throws the error of
    the URL parser before it creates the client: nothing is cached and
    nothing is sent, and [searchDocuments] fails in the same way, leaving
    the process as it was. *)
Theorem invalid_url_changes_nothing
    (env : Env) (query : string) (st : State) (e : JsError) :
  client st = None ->
  new_URL env (mcp.MCP_URL env) = Throw e ->
  mcp.getClient env st = (Abrupt e, st)
  /\ mcp.searchDocuments env query st = (Abrupt e, st).
Proof.
  intros Hnone Hurl.
  assert (H : mcp.getClient env st = (Abrupt e, st))
    by now rewrite getClient_eq, Hnone, Hurl.
  split; [exact H|]. now rewrite searchDocuments_eq, H.
Qed.

Lemma invalid_url_changes_nothing_witness :
  client initial_state = None
  /\ new_URL bad_url (mcp.MCP_URL bad_url) = Throw (Error "Invalid URL")
  /\ mcp.searchDocuments bad_url "VAST" initial_state
     = (Abrupt (Error "Invalid URL"), initial_state).
Proof.
  split; [reflexivity|]. split; [reflexivity|].
  exact (proj2 (invalid_url_changes_nothing bad_url "VAST" initial_state
                  (Error "Invalid URL") eq_refl eq_refl)).
Defined.

(** X13. When the connection succeeds but the listing of the tools that
    follows it in [getClient] fails, [getClient] throws that error and
    yet keeps the handle, which is connected: the next search does not
    connect again. *)
Theorem failed_listing_keeps_connection
    (env : Env) (st : State) (url : string) (e : JsError) :
  client st = None ->
  new_URL env (mcp.MCP_URL env) = Ok url ->
  mcp_connect env (trace st) url = Ok tt ->
  mcp_listTools env (trace st ++ [McpConnect url (Ok tt)]) = Throw e ->
  exists st',
    mcp.getClient env st = (Abrupt e, st')
    /\ client st' = Some THE_CLIENT
    /\ trace st' = trace st ++ [McpConnect url (Ok tt); McpListTools (Throw e)]
    /\ forall (env' : Env) (query : string),
         count is_connect (trace (snd (mcp.searchDocuments env' query st')))
         = count is_connect (trace st').
Proof.
  intros Hnone Hurl Hconn Hlist.
  rewrite getClient_eq, Hnone, Hurl. cbv zeta. cbn [trace set_client emit].
  rewrite Hconn, Hlist.
  eexists. split; [reflexivity|]. split; [reflexivity|].
  split; [cbn [trace emit set_client]; now rewrite <- app_assoc|].
  intros env' query. rewrite searchDocuments_eq, getClient_eq.
  cbn [client emit set_client]. cbv zeta.
  destruct (mcp_listTools env' _) as [tools|e'];
    [|cbn [snd trace emit]; rewrite !count_app; cbn; lia].
  destruct (find mcp.is_search_tool tools) as [t|];
    [|cbn [snd trace emit]; rewrite !count_app; cbn; lia].
  destruct (mcp_callTool env' _ _ _) as [result|e'];
    cbn [snd trace emit]; rewrite !count_app; cbn; lia.
Qed.

Lemma failed_listing_keeps_connection_witness :
  let env := first_listing_fails search_catalog in
  client initial_state = None
  /\ new_URL env (mcp.MCP_URL env) = Ok "https://iab-docs.apti.jp/mcp"
  /\ mcp_connect env (trace initial_state) "https://iab-docs.apti.jp/mcp" = Ok tt
  /\ exists st',
       mcp.getClient env initial_state = (Abrupt (Error "Request timed out"), st')
       /\ client st' = Some THE_CLIENT
       /\ count is_connect (trace (snd (mcp.searchDocuments env "VAST" st'))) = 1%nat.
Proof.
  intros env.
  split; [reflexivity|]. split; [reflexivity|]. split; [reflexivity|].
  destruct (failed_listing_keeps_connection env initial_state
              "https://iab-docs.apti.jp/mcp" (Error "Request timed out")
              eq_refl eq_refl eq_refl eq_refl)
    as (st' & Heq & Hc & Htrace & Hlater).
  exists st'. split; [exact Heq|]. split; [exact Hc|].
  rewrite Hlater, Htrace. reflexivity.
Defined.

(** The counts of the events [searchDocuments] adds. *)
Ltac count_search :=
  cbn [snd trace emit set_client cachedContent cachedAt genAI client];
  rewrite ?count_app; cbn [count filter is_connect is_callTool is_listTools length];
  repeat split; try reflexivity; try lia.

(** X14. One search makes at most one connection attempt, at most two
    listings of the tools and at most one tool call; once a handle is
    cached it never connects and lists the tools exactly once, afresh for
    every search.  It never touches the scope-document cache or the model
    handle. *)
Theorem search_interactions (env : Env) (query : string) (st : State) :
  let st' := snd (mcp.searchDocuments env query st) in
  (count is_connect (trace st') <= count is_connect (trace st) + 1)%nat
  /\ (count is_listTools (trace st') <= count is_listTools (trace st) + 2)%nat
  /\ (count is_callTool (trace st') <= count is_callTool (trace st) + 1)%nat
  /\ (client st <> None ->
      count is_connect (trace st') = count is_connect (trace st)
      /\ count is_listTools (trace st') = (count is_listTools (trace st) + 1)%nat)
  /\ cachedContent st' = cachedContent st
  /\ cachedAt st' = cachedAt st
  /\ genAI st' = genAI st.
Proof.
  cbv zeta. rewrite searchDocuments_eq, getClient_eq.
  destruct (client st) as [c|] eqn:Hclient.
  - cbv zeta.
    destruct (mcp_listTools env (trace st)) as [tools|e]; [|count_search].
    destruct (find mcp.is_search_tool tools) as [t|]; [|count_search].
    destruct (mcp_callTool env _ _ _) as [result|e]; count_search.
  - destruct (new_URL env (mcp.MCP_URL env)) as [url|e];
      [|count_search; intros; congruence].
    cbv zeta.
    destruct (mcp_connect env _ url) as [[]|e]; [|count_search; intros; congruence].
    destruct (mcp_listTools env _) as [tools0|e]; [|count_search; intros; congruence].
    destruct (mcp_listTools env _) as [tools|e]; [|count_search; intros; congruence].
    destruct (find mcp.is_search_tool tools) as [t|]; [|count_search; intros; congruence].
    destruct (mcp_callTool env _ _ _) as [result|e]; count_search; intros; congruence.
Qed.

(** Two searches in a fresh process: one connection, three listings, two
    calls. *)
Lemma search_interactions_witness :
  let env := docs_online search_catalog vast_result in
  let st1 := snd (mcp.searchDocuments env "VAST" initial_state) in
  let st2 := snd (mcp.searchDocuments env "VMAP" st1) in
  client st1 <> None
  /\ count is_connect (trace st2) = 1%nat
  /\ count is_listTools (trace st2) = 3%nat
  /\ count is_callTool (trace st2) = 2%nat.
Proof.
  intros env st1 st2.
  assert (H1 : client st1 <> None) by discriminate.
  destruct (search_interactions env "VMAP" st1) as (_ & _ & _ & Hcached & _).
  destruct (Hcached H1) as (Hconn & Hlist).
  split; [exact H1|]. split; [|split].
  - unfold st2. rewrite Hconn. reflexivity.
  - unfold st2. rewrite Hlist. reflexivity.
  - reflexivity.
Defined.

Lemma find_first (p : ToolInfo -> bool) (pre post : list ToolInfo) (t : ToolInfo) :
  Forall (fun u => p u = false) pre -> p t = true ->
  find p (pre ++ t :: post) = Some t.
Proof.
  intros Hpre Ht. induction Hpre as [|u pre Hu _ IH]; cbn [app find].
  - now rewrite Ht.
  - now rewrite Hu.
Qed.

(** X15. The tool a search invokes is the first of the catalog, in
    catalog order, whose lower-cased name contains ["search"] or
    ["query"]; it is invoked once, under its own name, with the query as
    the only argument, [{ query }], right after the listing; and the
    search returns what is extracted from its result, or throws its
    error. *)
Theorem first_matching_tool_is_called
    (env : Env) (query : string) (st st1 : State) (c : Client)
    (pre post : list ToolInfo) (t : ToolInfo) :
  mcp.getClient env st = (Normal c, st1) ->
  mcp_listTools env (trace st1) = Ok (pre ++ t :: post) ->
  Forall (fun u => mcp.is_search_tool u = false) pre ->
  mcp.is_search_tool t = true ->
  let listed := trace st1 ++ [McpListTools (Ok (pre ++ t :: post))] in
  let args := JObj [("query", JStr query)] in
  let out := mcp_callTool env listed (toolName t) args in
  trace (snd (mcp.searchDocuments env query st))
    = listed ++ [McpCallTool (toolName t) args out]
  /\ fst (mcp.searchDocuments env query st)
     = match out with
       | Ok result => Normal (mcp.extract result)
       | Throw e => Abrupt e
       end.
Proof.
  intros Hclient Htools Hpre Ht listed args out.
  rewrite searchDocuments_eq, Hclient. cbv zeta.
  rewrite Htools, (find_first _ _ _ _ Hpre Ht).
  cbn [trace emit]. fold listed. fold args. fold out.
  destruct out; split; reflexivity.
Qed.

(** [RunQuery] stands before [search_docs] in the catalog and is the
    tool invoked. *)
Lemma first_matching_tool_is_called_witness :
  let env := docs_online two_candidates vast_result in
  let st1 := snd (mcp.getClient env initial_state) in
  mcp.getClient env initial_state = (Normal THE_CLIENT, st1)
  /\ Forall (fun u => mcp.is_search_tool u = false) [mkToolInfo "list_specs" None]
  /\ mcp.is_search_tool (mkToolInfo "RunQuery" None) = true
  /\ trace (snd (mcp.searchDocuments env "VAST" initial_state))
     = [McpConnect "https://iab-docs.apti.jp/mcp" (Ok tt);
        McpListTools (Ok two_candidates);
        McpListTools (Ok two_candidates);
        McpCallTool "RunQuery" (JObj [("query", JStr "VAST")]) (Ok vast_result)].
Proof.
  intros env st1.
  assert (H1 : mcp.getClient env initial_state = (Normal THE_CLIENT, st1)) by reflexivity.
  assert (Hpre : Forall (fun u => mcp.is_search_tool u = false)
                        [mkToolInfo "list_specs" None])
    by (repeat constructor).
  assert (Ht : mcp.is_search_tool (mkToolInfo "RunQuery" None) = true) by reflexivity.
  split; [exact H1|]. split; [exact Hpre|]. split; [exact Ht|].
  exact (proj1 (first_matching_tool_is_called env "VAST" initial_state st1 THE_CLIENT
                  [mkToolInfo "list_specs" None] [mkToolInfo "search_docs" None]
                  (mkToolInfo "RunQuery" None) H1 eq_refl Hpre Ht)).
Defined.

(** X16. A search that cannot get a client, or cannot list the tools,
    throws the error it met, unchanged, and calls no tool. *)
Theorem search_fails_before_any_call (env : Env) (query : string) (st : State) :
  (forall (e : JsError) (st1 : State),
     mcp.getClient env st = (Abrupt e, st1) ->
     mcp.searchDocuments env query st = (Abrupt e, st1)
     /\ count is_callTool (trace st1) = count is_callTool (trace st))
  /\
  (forall (c : Client) (st1 : State) (e : JsError),
     mcp.getClient env st = (Normal c, st1) ->
     mcp_listTools env (trace st1) = Throw e ->
     mcp.searchDocuments env query st = (Abrupt e, emit (McpListTools (Throw e)) st1)
     /\ count is_callTool (trace (emit (McpListTools (Throw e)) st1))
        = count is_callTool (trace st)).
Proof.
  pose proof (getClient_count is_callTool env st
                ltac:(reflexivity) ltac:(reflexivity)) as Hcount.
  split.
  - intros e st1 Hclient. rewrite searchDocuments_eq, Hclient.
    rewrite Hclient in Hcount. split; [reflexivity | exact Hcount].
  - intros c st1 e Hclient Hlist. rewrite searchDocuments_eq, Hclient. cbv zeta.
    rewrite Hlist. rewrite Hclient in Hcount. cbn [snd] in Hcount.
    split; [reflexivity|]. cbn [trace emit]. rewrite count_app, Hcount. cbn. lia.
Qed.

Lemma search_fails_before_any_call_witness :
  mcp.getClient offline initial_state
    = (Abrupt ECONNREFUSED, snd (mcp.getClient offline initial_state))
  /\ fst (mcp.searchDocuments offline "VAST" initial_state) = Abrupt ECONNREFUSED
  /\ count is_callTool (trace (snd (mcp.searchDocuments offline "VAST" initial_state)))
     = 0%nat.
Proof.
  assert (H : mcp.getClient offline initial_state
              = (Abrupt ECONNREFUSED, snd (mcp.getClient offline initial_state)))
    by reflexivity.
  split; [exact H|].
  destruct (proj1 (search_fails_before_any_call offline "VAST" initial_state) _ _ H)
    as (Heq & Hcount).
  rewrite Heq. split; [reflexivity | exact Hcount].
Defined.

(** [closeClient], step by step. *)
Lemma closeClient_eq (env : Env) (st : State) :
  mcp.closeClient env st =
    match client st with
    | None => (Normal tt, st)
    | Some _ =>
        let out := mcp_close env (trace st) in
        match out with
        | Ok _ => (Normal tt, set_client None (emit (McpClose out) st))
        | Throw e => (Abrupt e, emit (McpClose out) st)
        end
    end.
Proof.
  unfold mcp.closeClient, mcp.close. run_M. cbn [fst snd].
  destruct (client st); [|reflexivity].
  rewrite call_eq. cbv zeta.
  destruct (mcp_close env (trace st)) as [[]|e]; reflexivity.
Qed.

(** X17. [closeClient] does nothing when there is no handle.  With a
    handle it closes the connection once and, when that succeeds, empties
    the handle, so that the next [getClient] connects anew; this is also
    what makes a process connect again after a failed connection. *)
Theorem closeClient_empties_handle (env : Env) (st : State) :
  (client st = None -> mcp.closeClient env st = (Normal tt, st))
  /\
  (forall c : Client,
     client st = Some c ->
     mcp_close env (trace st) = Ok tt ->
     let st' := mkState (cachedContent st) (cachedAt st) None (genAI st)
                  (trace st ++ [McpClose (Ok tt)]) in
     mcp.closeClient env st = (Normal tt, st')
     /\ forall (env' : Env) (url : string),
          new_URL env' (mcp.MCP_URL env') = Ok url ->
          count is_connect (trace (snd (mcp.getClient env' st')))
          = S (count is_connect (trace st'))).
Proof.
  split.
  - intros Hnone. now rewrite closeClient_eq, Hnone.
  - intros c Hc Hclose st'. split.
    + rewrite closeClient_eq, Hc. cbv zeta. rewrite Hclose. reflexivity.
    + intros env' url Hurl. rewrite getClient_eq. cbn [client st']. rewrite Hurl.
      cbv zeta.
      destruct (mcp_connect env' _ url) as [[]|e].
      * destruct (mcp_listTools env' _) as [tools|e];
          cbn [snd trace emit set_client]; rewrite !count_app; cbn; lia.
      * cbn [snd trace emit set_client]. rewrite !count_app. cbn. lia.
Qed.

(** After the refused first connection, a search fails without
    connecting; after [closeClient], the next search connects and
    succeeds. *)
Lemma closeClient_empties_handle_witness :
  let env := refuses_first_connection search_catalog in
  let st1 := snd (mcp.searchDocuments env "VAST" initial_state) in
  let st2 := snd (mcp.closeClient env st1) in
  client st1 = Some THE_CLIENT
  /\ mcp_close env (trace st1) = Ok tt
  /\ fst (mcp.searchDocuments env "VAST" st1) = Abrupt NOT_CONNECTED
  /\ client st2 = None
  /\ count is_connect (trace (snd (mcp.getClient env st2)))
     = S (count is_connect (trace st2))
  /\ exists r, fst (mcp.searchDocuments env "VAST" st2) = Normal r.
Proof.
  intros env st1 st2.
  assert (Hc : client st1 = Some THE_CLIENT) by reflexivity.
  assert (Hclose : mcp_close env (trace st1) = Ok tt) by reflexivity.
  split; [exact Hc|]. split; [exact Hclose|]. split; [reflexivity|].
  destruct (proj2 (closeClient_empties_handle env st1) THE_CLIENT Hc Hclose)
    as (Heq & Hnext).
  unfold st2. rewrite Heq. cbn [snd]. split; [reflexivity|].
  split; [exact (Hnext env _ eq_refl)|].
  eexists. vm_compute. reflexivity.
Defined.

(** X18. When closing the connection fails, [closeClient] throws that
    error and keeps the handle: [getClient] goes on returning it, without
    connecting. *)
Theorem failed_close_keeps_handle
    (env : Env) (st : State) (c : Client) (e : JsError) :
  client st = Some c ->
  mcp_close env (trace st) = Throw e ->
  exists st',
    mcp.closeClient env st = (Abrupt e, st')
    /\ client st' = Some c
    /\ trace st' = trace st ++ [McpClose (Throw e)]
    /\ forall env' : Env, mcp.getClient env' st' = (Normal c, st').
Proof.
  intros Hc Hclose. rewrite closeClient_eq, Hc. cbv zeta. rewrite Hclose.
  eexists. split; [reflexivity|]. split; [exact Hc|]. split; [reflexivity|].
  intros env'. rewrite getClient_eq. cbn [client emit]. now rewrite Hc.
Qed.

Lemma failed_close_keeps_handle_witness :
  let st := snd (mcp.getClient close_fails initial_state) in
  client st = Some THE_CLIENT
  /\ mcp_close close_fails (trace st) = Throw (Error "Connection closed")
  /\ exists st',
       mcp.closeClient close_fails st = (Abrupt (Error "Connection closed"), st')
       /\ client st' = Some THE_CLIENT.
Proof.
  intros st.
  assert (Hc : client st = Some THE_CLIENT) by reflexivity.
  split; [exact Hc|]. split; [reflexivity|].
  destruct (failed_close_keeps_handle close_fails st THE_CLIENT
              (Error "Connection closed") Hc eq_refl) as (st' & Heq & Hc' & _).
  exists st'. split; [exact Heq | exact Hc'].
Defined.

(** ** What is extracted from a response *)

Lemma text_segments_as_text (l : list string) : text_segments (map as_text l) = l.
Proof.
  induction l as [|t l IH]; [reflexivity|].
  cbn [map]. rewrite text_segments_cons. cbn. now rewrite IH.
Qed.

(** X19. Only text counts in a response: a result without a content
    array gives the empty search result, and so does a content array
    without text items; in general the items that are not tagged
    ["text"], or whose text is not a string, change nothing, the search
    result being that of the text segments alone. *)
Theorem non_text_items_are_ignored :
  mcp.extract (mkCallToolResult None) = mkSearchResult "" []
  /\ (forall items : list ContentItem,
        mcp.extract (mkCallToolResult (Some items))
        = mcp.extract (mkCallToolResult (Some (map as_text (text_segments items)))))
  /\ (forall items : list ContentItem,
        text_segments items = [] ->
        mcp.extract (mkCallToolResult (Some items)) = mkSearchResult "" []).
Proof.
  split; [reflexivity|]. split.
  - intros items. rewrite !extract_eq. unfold all_links.
    now rewrite text_segments_as_text.
  - intros items H. rewrite extract_eq. unfold all_links. rewrite H. reflexivity.
Qed.

Lemma non_text_items_are_ignored_witness :
  text_segments no_text_items = []
  /\ mcp.extract (mkCallToolResult (Some no_text_items)) = mkSearchResult "" [].
Proof.
  split; [reflexivity|].
  exact (proj2 (proj2 non_text_items_are_ignored) no_text_items eq_refl).
Defined.

Lemma fold_Set_add_first_occurrences (l seen : list string) :
  fold_left js.Set_add l seen = seen ++ first_occurrences seen l.
Proof.
  revert seen. induction l as [|x l IH]; intros seen; cbn [fold_left first_occurrences].
  - now rewrite app_nil_r.
  - unfold js.Set_add at 2. destruct (existsb (String.eqb x) seen); [apply IH|].
    rewrite IH, <- app_assoc. reflexivity.
Qed.

(** X20. The sources of a search result are in the order in which the
    links first occur in the response, a link that occurred before being
    skipped; when no link occurs twice the sources are the links as they
    occur. *)
Theorem sources_in_order_of_first_occurrence (items : list ContentItem) :
  sources (mcp.extract (mkCallToolResult (Some items)))
  = first_occurrences [] (all_links items)
  /\ (NoDup (all_links items) ->
      sources (mcp.extract (mkCallToolResult (Some items))) = all_links items).
Proof.
  rewrite extract_eq. cbn [sources]. split.
  - unfold js.Set_of. now rewrite fold_Set_add_first_occurrences.
  - intros H. apply (fold_Set_add_distinct (all_links items) []). exact H.
Qed.

Lemma sources_in_order_of_first_occurrence_witness :
  let items := [as_text "[b](http://y) then [a](http://x)";
                as_text "[a](http://x), [c](https://z)"] in
  NoDup (all_links [as_text "[b](http://y) then [a](http://x)"])
  /\ sources (mcp.extract (mkCallToolResult
                             (Some [as_text "[b](http://y) then [a](http://x)"])))
     = ["[b](http://y)"; "[a](http://x)"]
  /\ sources (mcp.extract (mkCallToolResult (Some items)))
     = ["[b](http://y)"; "[a](http://x)"; "[c](https://z)"].
Proof.
  intros items.
  assert (H : NoDup (all_links [as_text "[b](http://y) then [a](http://x)"])).
  { vm_compute. repeat constructor; cbn; intuition discriminate. }
  split; [exact H|]. split.
  - rewrite (proj2 (sources_in_order_of_first_occurrence _) H). reflexivity.
  - rewrite (proj1 (sources_in_order_of_first_occurrence items)). reflexivity.
Defined.

(** ** Finding every link *)

Lemma match_all_pass (r : js.Regex) (a rest : string) :
  js.match_all r (a ++ rest)%string (String.length a) = js.match_all r rest 0.
Proof. induction a as [|x a IH]; [reflexivity | exact IH]. Qed.

Lemma match_all_link (m rest : string) :
  is_link m ->
  js.match_all mcp.LINK (m ++ rest)%string 0 = m :: js.match_all mcp.LINK rest 0.
Proof.
  intros Hm. pose proof (match_here_link m rest Hm) as Hhere.
  destruct m as [|x m]; [inversion Hm|].
  cbn [append js.match_all]. cbn [append] in Hhere. rewrite Hhere.
  f_equal.
  - exact (substring_prefix (String x m) rest).
  - cbn [String.length pred]. apply match_all_pass.
Qed.

Lemma match_all_interleave (parts : list (string * string)) :
  forall p0 : string,
    bracket_free p0 = true ->
    Forall (fun mp => is_link (fst mp) /\ bracket_free (snd mp) = true) parts ->
    js.match_all mcp.LINK (interleave p0 parts) 0 = map fst parts.
Proof.
  induction parts as [|[m p] parts IH]; intros p0 Hp0 Hparts; cbn [interleave map fst].
  - now apply match_all_bracket_free.
  - inversion Hparts as [|? ? [Hm Hp] Hrest]; subst. cbn [fst snd] in *.
    rewrite (match_all_skip _ _ Hp0), (match_all_link _ _ Hm).
    f_equal. now apply IH.
Qed.

(** X21. In a text segment made of links separated by text without
    opening brackets, every link is found, in order: whatever the labels
    and the http or https urls of the links, the sources of the response
    are exactly these links, each once, in the order of their first
    occurrence. *)
Theorem links_in_plain_text_are_all_found
    (p0 : string) (parts : list (string * string)) :
  bracket_free p0 = true ->
  Forall (fun mp => is_link (fst mp) /\ bracket_free (snd mp) = true) parts ->
  all_links [as_text (interleave p0 parts)] = map fst parts
  /\ sources (mcp.extract (mkCallToolResult (Some [as_text (interleave p0 parts)])))
     = first_occurrences [] (map fst parts).
Proof.
  intros Hp0 Hparts.
  assert (H : all_links [as_text (interleave p0 parts)] = map fst parts).
  { unfold all_links. cbn [text_segments flat_map as_text itemText itemType].
    cbn [String.eqb Ascii.eqb Bool.eqb app flat_map]. rewrite app_nil_r.
    now apply match_all_interleave. }
  split; [exact H|].
  rewrite extract_eq. cbn [sources]. rewrite H.
  unfold js.Set_of. now rewrite fold_Set_add_first_occurrences.
Qed.

Lemma links_in_plain_text_are_all_found_witness :
  bracket_free "See " = true
  /\ Forall (fun mp => is_link (fst mp) /\ bracket_free (snd mp) = true) three_links
  /\ interleave "See " three_links
     = "See [VAST 4.2](https://iabtechlab.com/vast) and [VMAP](http://iabtechlab.com/vmap), then [VAST 4.2](https://iabtechlab.com/vast)."
  /\ sources (mcp.extract
                (mkCallToolResult (Some [as_text (interleave "See " three_links)])))
     = [vast_link; vmap_link].
Proof.
  assert (Hvast : is_link vast_link).
  { exact (@link "VAST 4.2" true "iabtechlab.com/vast"
             ltac:(discriminate) eq_refl ltac:(discriminate) eq_refl). }
  assert (Hvmap : is_link vmap_link).
  { exact (@link "VMAP" false "iabtechlab.com/vmap"
             ltac:(discriminate) eq_refl ltac:(discriminate) eq_refl). }
  assert (Hparts : Forall (fun mp => is_link (fst mp) /\ bracket_free (snd mp) = true)
                          three_links).
  { repeat constructor; assumption. }
  split; [reflexivity|]. split; [exact Hparts|]. split; [reflexivity|].
  rewrite (proj2 (links_in_plain_text_are_all_found "See " three_links eq_refl Hparts)).
  reflexivity.
Defined.

(** ** More on [trim] *)

Lemma ws2_LF (a : ascii) : js.ws2 a "010" = false.
Proof. unfold js.ws2. cbn. apply andb_false_r. Qed.

Lemma ws3_LF (a b : ascii) : js.ws3 a b "010" = false.
Proof.
  unfold js.ws3. cbn.
  repeat (rewrite andb_false_r || rewrite orb_false_r || cbn [andb orb]).
  reflexivity.
Qed.

(** Stripping the start of a list that ends in a blank line. *)
Lemma strip_blank_line (n : nat) :
  forall l : list ascii,
    (List.length l <= n)%nat ->
    js.strip js.ws2 js.ws3 (l ++ ["010"; "010"]%char)
    = match js.strip js.ws2 js.ws3 l with
      | [] => []
      | l' => l' ++ ["010"; "010"]%char
      end.
Proof.
  induction n as [|n IH]; intros l Hlen.
  { destruct l; [reflexivity | cbn in Hlen; lia]. }
  destruct l as [|a l1]; [reflexivity|].
  cbn [app js.strip]. destruct (js.ws1 a) eqn:Ha.
  { apply IH. cbn in Hlen. lia. }
  destruct l1 as [|b l2].
  { cbn [app]. now rewrite ws2_LF, ws3_LF. }
  cbn [app]. destruct (js.ws2 a b).
  { apply IH. cbn in Hlen. lia. }
  destruct l2 as [|c l3].
  { cbn [app]. now rewrite ws3_LF. }
  cbn [app]. destruct (js.ws3 a b c); [|reflexivity].
  apply IH. cbn in Hlen. lia.
Qed.

Lemma trimEnd_blank_line (l : list ascii) :
  js.trimEnd (l ++ ["010"; "010"]%char) = js.trimEnd l.
Proof. unfold js.trimEnd. rewrite rev_app_distr. reflexivity. Qed.

Lemma trim_blank_line (s : string) : js.trim (s ++ js.LF ++ js.LF)%string = js.trim s.
Proof.
  unfold js.trim. f_equal. rewrite chars_append.
  change (js.chars (js.LF ++ js.LF)) with ["010"; "010"]%char.
  unfold js.trimStart. rewrite (strip_blank_line _ _ (le_n _)).
  destruct (js.strip js.ws2 js.ws3 (js.chars s)) as [|a l'] eqn:Hs; [reflexivity|].
  apply trimEnd_blank_line.
Qed.

Lemma blank_line_joined_concat (segments : list string) :
  segments <> [] ->
  blank_line_joined segments
  = (String.concat (js.LF ++ js.LF) segments ++ js.LF ++ js.LF)%string.
Proof.
  induction segments as [|t rest IH]; intros Hne; [contradiction|].
  destruct rest as [|t' rest].
  - cbn [blank_line_joined String.concat]. now rewrite append_empty_r.
  - cbn [blank_line_joined] in *. cbn [String.concat].
    rewrite (IH ltac:(discriminate)).
    cbn [String.concat]. now rewrite <- !append_assoc.
Qed.

(** X22. The content of a search result is the text segments of the
    response joined by blank lines and trimmed, as
    [segments.join('\n\n').trim()] would give: the separator stands
    between the segments only; for a single segment the content is that
    segment, trimmed. *)
Theorem content_is_trimmed_join :
  (forall items : list ContentItem,
     content (mcp.extract (mkCallToolResult (Some items)))
     = js.trim (String.concat (js.LF ++ js.LF) (text_segments items)))
  /\ (forall text : string,
        content (mcp.extract (mkCallToolResult (Some [as_text text]))) = js.trim text).
Proof.
  assert (H : forall items : list ContentItem,
             content (mcp.extract (mkCallToolResult (Some items)))
             = js.trim (String.concat (js.LF ++ js.LF) (text_segments items))).
  { intros items. rewrite extract_eq. cbn [content].
    destruct (text_segments items) as [|t rest] eqn:Hsegs; [reflexivity|].
    rewrite blank_line_joined_concat by discriminate.
    apply trim_blank_line. }
  split; [exact H|]. intros text. now rewrite H.
Qed.

Lemma strip_length (w2 : ascii -> ascii -> bool) (w3 : ascii -> ascii -> ascii -> bool)
    (n : nat) :
  forall l : list ascii,
    (List.length l <= n)%nat ->
    exists p, l = p ++ js.strip w2 w3 l.
Proof.
  induction n as [|n IH]; intros l Hlen.
  { destruct l; [now exists [] | cbn in Hlen; lia]. }
  destruct l as [|a l1]; [now exists []|].
  cbn [js.strip]. destruct (js.ws1 a).
  { destruct (IH l1 ltac:(cbn in Hlen; lia)) as (p & Hp).
    exists (a :: p). cbn [app]. now rewrite <- Hp. }
  destruct l1 as [|b l2]; [now exists []|].
  destruct (w2 a b).
  { destruct (IH l2 ltac:(cbn in Hlen; lia)) as (p & Hp).
    exists (a :: b :: p). cbn [app]. now rewrite <- Hp. }
  destruct l2 as [|c l3]; [now exists []|].
  destruct (w3 a b c); [|now exists []].
  destruct (IH l3 ltac:(cbn in Hlen; lia)) as (p & Hp).
  exists (a :: b :: c :: p). cbn [app]. now rewrite <- Hp.
Qed.

Lemma strip_fix (w2 : ascii -> ascii -> bool) (w3 : ascii -> ascii -> ascii -> bool)
    (n : nat) :
  forall l : list ascii,
    (List.length l <= n)%nat ->
    js.strip w2 w3 (js.strip w2 w3 l) = js.strip w2 w3 l.
Proof.
  induction n as [|n IH]; intros l Hlen.
  { destruct l; [reflexivity | cbn in Hlen; lia]. }
  destruct l as [|a l1]; [reflexivity|].
  cbn [js.strip]. destruct (js.ws1 a) eqn:Ha.
  { apply IH. cbn in Hlen. lia. }
  destruct l1 as [|b l2]; [cbn [js.strip]; now rewrite Ha|].
  destruct (w2 a b) eqn:Hab.
  { apply IH. cbn in Hlen. lia. }
  destruct l2 as [|c l3]; [cbn [js.strip]; now rewrite Ha, Hab|].
  destruct (w3 a b c) eqn:Habc; [|cbn [js.strip]; now rewrite Ha, Hab, Habc].
  apply IH. cbn in Hlen. lia.
Qed.

(** A list that [strip] leaves alone has no prefix that [strip] would
    shorten. *)
Lemma strip_prefix (w2 : ascii -> ascii -> bool) (w3 : ascii -> ascii -> ascii -> bool)
    (p q : list ascii) :
  js.strip w2 w3 (p ++ q) = p ++ q -> js.strip w2 w3 p = p.
Proof.
  intros H.
  assert (Hshort : forall (l : list ascii) (k : nat),
             (List.length (js.strip w2 w3 l) <= List.length l)%nat).
  { intros l _. destruct (strip_length w2 w3 _ l (le_n _)) as (x & Hx).
    rewrite Hx at 2. rewrite length_app. lia. }
  destruct p as [|a p1]; [reflexivity|].
  cbn [app js.strip] in H. cbn [js.strip].
  destruct (js.ws1 a).
  { exfalso. pose proof (Hshort (p1 ++ q) 0%nat) as Hl. rewrite H in Hl. cbn in Hl. lia. }
  destruct p1 as [|b p2]; [reflexivity|].
  cbn [app] in H.
  destruct (w2 a b).
  { exfalso. pose proof (Hshort (p2 ++ q) 0%nat) as Hl. rewrite H in Hl. cbn in Hl. lia. }
  destruct p2 as [|c p3]; [reflexivity|].
  cbn [app] in H.
  destruct (w3 a b c); [|reflexivity].
  exfalso. pose proof (Hshort (p3 ++ q) 0%nat) as Hl. rewrite H in Hl. cbn in Hl. lia.
Qed.

Lemma trim_idempotent (s : string) : js.trim (js.trim s) = js.trim s.
Proof.
  unfold js.trim at 1 3. f_equal.
  unfold js.trim, js.chars, js.of_chars. rewrite list_ascii_of_string_of_list_ascii.
  set (l1 := js.trimStart (list_ascii_of_string s)).
  assert (Hclean : js.trimStart l1 = l1).
  { unfold l1, js.trimStart. apply (strip_fix _ _ _ _ (le_n _)). }
  unfold js.trimEnd at 2.
  set (wr2 := fun b a => js.ws2 a b). set (wr3 := fun c b a => js.ws3 a b c).
  set (r := js.strip wr2 wr3 (rev l1)).
  destruct (strip_length wr2 wr3 _ (rev l1) (le_n _)) as (p & Hp). fold r in Hp.
  assert (Hl1 : l1 = rev r ++ rev p).
  { rewrite <- rev_app_distr, <- Hp. now rewrite rev_involutive. }
  assert (Hstart : js.trimStart (rev r) = rev r).
  { unfold js.trimStart in *. apply (strip_prefix _ _ _ (rev p)). now rewrite <- Hl1. }
  rewrite Hstart. unfold js.trimEnd. rewrite rev_involutive. f_equal.
  unfold r. apply (strip_fix _ _ _ _ (le_n _)).
Qed.

(** X23. The content of a search result carries no white space at
    either end, whatever the response holds: trimming it again gives it
    back unchanged. *)
Theorem content_is_already_trimmed (result : CallToolResult) :
  js.trim (content (mcp.extract result)) = content (mcp.extract result).
Proof.
  destruct result as [items]. destruct items as [items|].
  - rewrite extract_eq. cbn [content]. apply trim_idempotent.
  - reflexivity.
Qed.
